(** * StreamBot: playback orchestration core

    A shallow embedding of the command handler and its message filter,
    the voice state handler, [playVideo], [cleanupStreamStatus],
    [getTwitchStreamUrl], the notification helpers and the parsers of
    config.ts of the StreamBot sources, together with the properties of
    the specification that concern them and further properties of the
    code.

    JavaScript strings are modelled by Rocq strings that hold their
    UTF-8 encoding.  [trim] removes the white space of ECMAScript, given
    by its encoding.  [toUpperCase] and [toLowerCase] follow the case
    mappings of Unicode, which are not reproduced here: the functions
    that call them take them as a parameter, and nothing is assumed of
    them unless a statement says so.

    Asynchronous functions are programs of a small resumption monad
    ([Prog]): a program runs without interruption up to its next [await],
    where it is suspended until the awaited promise settles.  A call that
    is not awaited is a [Fork]: the callee runs up to its first [await]
    and the caller continues. *)

From Stdlib Require Import List String Ascii ZArith Bool Arith Lia DecimalString.
Import ListNotations.
Open Scope string_scope.

Set Implicit Arguments.

(* ================================================================= *)
(** ** JavaScript strings and numbers *)

Module Js.

(** Truthiness of a string: the empty string is falsy. *)
Definition truthy (s : string) : bool :=
  match s with
  | EmptyString => false
  | String _ _ => true
  end.

(** [a || b] on strings. *)
Definition orElse (a b : string) : string := if truthy a then a else b.

(** Truthiness of [string | undefined] / [string | null]. *)
Definition truthyOpt (o : option string) : bool :=
  match o with
  | Some s => truthy s
  | None => false
  end.

Definition orElseOpt (o : option string) (b : string) : string :=
  match o with
  | Some s => orElse s b
  | None => b
  end.

(** The length in bytes of the white-space character at the head of
    [s], or 0 when [s] does not begin with one.  The white space of
    [trim] is the WhiteSpace and the LineTerminator of ECMAScript:
    U+0009 to U+000D, U+0020, U+00A0 (C2 A0), U+1680 (E1 9A 80),
    U+2000 to U+200A (E2 80 80 to E2 80 8A), U+2028, U+2029 (E2 80 A8,
    E2 80 A9), U+202F (E2 80 AF), U+205F (E2 81 9F), U+3000 (E3 80 80)
    and U+FEFF (EF BB BF). *)
Definition whiteLen (s : string) : nat :=
  match s with
  | EmptyString => 0
  | String c rest =>
      let n := nat_of_ascii c in
      if Nat.eqb n 32 || (Nat.leb 9 n && Nat.leb n 13) then 1
      else
        match rest with
        | EmptyString => 0
        | String d rest' =>
            let m := nat_of_ascii d in
            if Nat.eqb n 194 && Nat.eqb m 160 then 2
            else
              match rest' with
              | EmptyString => 0
              | String e _ =>
                  let k := nat_of_ascii e in
                  if (Nat.eqb n 225 && Nat.eqb m 154 && Nat.eqb k 128)
                     || (Nat.eqb n 226 && Nat.eqb m 128
                         && ((Nat.leb 128 k && Nat.leb k 138)
                             || Nat.eqb k 168 || Nat.eqb k 169 || Nat.eqb k 175))
                     || (Nat.eqb n 226 && Nat.eqb m 129 && Nat.eqb k 159)
                     || (Nat.eqb n 227 && Nat.eqb m 128 && Nat.eqb k 128)
                     || (Nat.eqb n 239 && Nat.eqb m 187 && Nat.eqb k 191)
                  then 3
                  else 0
              end
        end
  end.

(** [trimStartFrom skip s] drops [skip] bytes, the rest of a white-space
    character, and then the white space at the head of what is left. *)
Fixpoint trimStartFrom (skip : nat) (s : string) : string :=
  match s with
  | EmptyString => EmptyString
  | String _ s' =>
      match skip with
      | S k => trimStartFrom k s'
      | O =>
          match whiteLen s with
          | O => s
          | S k => trimStartFrom k s'
          end
      end
  end.

Definition trimStart (s : string) : string := trimStartFrom 0 s.

(** A string of white space only. *)
Definition blank (s : string) : bool :=
  match trimStart s with
  | EmptyString => true
  | String _ _ => false
  end.

(** [trimEnd] drops the longest suffix that is white space only. *)
Fixpoint trimEnd (s : string) : string :=
  match s with
  | EmptyString => EmptyString
  | String c s' => if blank s then EmptyString else String c (trimEnd s')
  end.

Definition trim (s : string) : string := trimEnd (trimStart s).

(** [s.includes(sub)] *)
Fixpoint includes (s sub : string) : bool :=
  String.prefix sub s
  || match s with
     | EmptyString => false
     | String _ s' => includes s' sub
     end.

Fixpoint drop (n : nat) (s : string) : string :=
  match n, s with
  | O, _ => s
  | S n', String _ s' => drop n' s'
  | S _, EmptyString => EmptyString
  end.

(** [s.split(sep).pop()] for a non-empty separator: what follows the
    last occurrence of [sep], occurrences being found from left to
    right without overlap; all of [s] when [sep] does not occur. *)
Fixpoint splitPopFrom (sep s : string) (skip : nat) (last : string) : string :=
  match s with
  | EmptyString => last
  | String _ s' =>
      match skip with
      | S n => splitPopFrom sep s' n last
      | O =>
          if String.prefix sep s
          then splitPopFrom sep s' (String.length sep - 1) (drop (String.length sep) s)
          else splitPopFrom sep s' 0 last
      end
  end.

Definition splitPop (s sep : string) : string := splitPopFrom sep s 0 s.

(** [arr.join(sep)] *)
Fixpoint join (sep : string) (l : list string) : string :=
  match l with
  | [] => ""
  | [x] => x
  | x :: rest => x ++ sep ++ join sep rest
  end.

(** [arr.includes(v)] on an array of strings. *)
Definition arrayIncludes (l : list string) (v : string) : bool :=
  existsb (String.eqb v) l.

(** Numbers: the configuration and the stream options hold the result
    of [parseInt], an integer or [NaN]. *)
Inductive number : Type :=
| NaN
| Int (z : Z).

Definition numTruthy (n : number) : bool :=
  match n with
  | NaN => false
  | Int z => negb (z =? 0)%Z
  end.

Definition numOr (n d : number) : number := if numTruthy n then n else d.

(** Number-to-string conversion of a template literal. *)
Definition numToString (n : number) : string :=
  match n with
  | NaN => "NaN"
  | Int z => NilZero.string_of_int (Z.to_int z)
  end.

End Js.

(* ================================================================= *)
(** ** config.ts *)

Definition VALID_VIDEO_CODECS : list string := ["VP8"; "H264"; "H265"; "VP9"; "AV1"].

(** The argument is the value of [STREAM_VIDEO_CODEC]: a string, so the
    [typeof value === "string"] test succeeds. *)
Section UpperCase.

(** [String.prototype.toUpperCase] *)
Variable toUpperCase : string -> string.

Definition parseVideoCodec (value : string) : string :=
  let value := toUpperCase (Js.trim value) in
  if Js.arrayIncludes VALID_VIDEO_CODECS value then value else "H264".

End UpperCase.

Record Config : Type := {
  prefix : string;
  guildId : string;
  cmdChannelId : string;
  videoChannelId : string;
  respect_video_params : bool;
  width : Js.number;
  height : Js.number;
  fps : Js.number;
  bitrateKbps : Js.number;
  maxBitrateKbps : Js.number;
  jellyfin_enabled : bool
}.

(* ================================================================= *)
(** ** Data of index.ts *)

(** A Discord message, known by its identity. *)
Record Message : Type := { msgId : nat }.

Record Video : Type := { name : string; path : string }.

Record ChannelInfo : Type := {
  ciGuildId : string;
  ciChannelId : string;
  ciCmdChannelId : string
}.

(** The [streamStatus] object. *)
Record StreamStatus : Type := {
  joined : bool;
  joinsucc : bool;
  playing : bool;
  manualStop : bool;
  channelInfo : ChannelInfo
}.

(** The [streamOpts] object: the fields that the modelled code reads or
    writes. *)
Record StreamOpts : Type := {
  soWidth : Js.number;
  soHeight : Js.number;
  soFrameRate : Js.number;
  soBitrateVideo : Js.number;
  soBitrateVideoMax : Js.number
}.

(** One rendition of a Twitch playlist ([TwitchStream]); an absent
    [url] is the empty string. *)
Record TwitchStream : Type := {
  quality : string;
  resolution : string;
  url : string
}.

(** What [youtube.getVideoInfo] resolves to: the handler reads [title],
    [playVideo] reads [videoDetails?.isLiveContent]. *)
Record VideoDetails : Type := { isLiveContent : bool }.
Record VideoInfo : Type := {
  viTitle : string;
  videoDetails : option VideoDetails
}.

Record SearchResult : Type := {
  pageUrl : option string;
  srTitle : option string
}.

(** The result of [getVideoParams]; [bitrate] and [maxbitrate] are [None]
    for the string "N/A" and the number read otherwise. *)
Record VideoParams : Type := {
  vpWidth : Js.number;
  vpHeight : Js.number;
  vpBitrate : option Z;
  vpMaxbitrate : option Z;
  vpFps : Js.number
}.

Record StreamInfo : Type := { streamUrl : string; isLocal : bool }.

Record JellyfinItem : Type := {
  itemName : string;
  itemType : string;
  seriesName : option string;
  parentIndexNumber : Js.number;
  indexNumber : Js.number;
  productionYear : Js.number
}.

Inductive Activity : Type :=
| status_idle
| status_watch (name : string).

Inductive Exn : Type :=
| Error (message : string)
| TypeError (message : string).

(** The calls that return a promise, with their arguments. *)
Inductive Query : Type :=
| React (m : Message) (emoji : string)
| Reply (m : Message) (content : string)
| ChannelSend (m : Message) (content : string)
| CmdChannelSend (content : string)
| Edit (m : Message) (content : string)
| Delete (m : Message)
| PromiseAll (q1 q2 : Query)
| GetVideoInfo (link : string)
| GetLiveStreamUrl (link : string)
| DownloadToTempFile (link : string) (format : string)
| GetVideoParams (file : string)
| YtsSearch (title : string)
| SearchAndGetPageUrl (title : string)
| GetVod (vodId : string)
| GetStream (twitchId : string)
| GetStreamInfo (itemId : string)
| GetItem (itemId : string)
| JoinVoice (guild channel : string)
| PlayStream (input : string) (signal : nat).

(** The type of the value a promise is fulfilled with. *)
Definition resp (q : Query) : Type :=
  match q with
  | React _ _ | ChannelSend _ _ | CmdChannelSend _ | Edit _ _ | Delete _
  | PromiseAll _ _ | YtsSearch _ | JoinVoice _ _ | PlayStream _ _ => unit
  | Reply _ _ => Message
  | GetVideoInfo _ => option VideoInfo
  | GetLiveStreamUrl _ => option string
  | DownloadToTempFile _ _ => string
  | GetVideoParams _ => VideoParams
  | SearchAndGetPageUrl _ => SearchResult
  | GetVod _ | GetStream _ => list TwitchStream
  | GetStreamInfo _ => option StreamInfo
  | GetItem _ => option JellyfinItem
  end.

Inductive Settled (A : Type) : Type :=
| Resolved (a : A)
| Rejected (e : Exn).
Arguments Rejected {A} e.

(** What the program does to its collaborators, in order. *)
Inductive Effect : Type :=
| Call (q : Query)
| Abort (c : nat)
| StopStream
| LeaveVoice
| SetActivity (a : Activity)
| PrepareStream (input : string) (opts : StreamOpts) (signal : nat)
| UnlinkSync (file : string)
| UnhandledRejection (e : Exn).

(** The module-level state of index.ts.  [controller] is [None] until
    the first [new AbortController()]; [aborted] holds [signal.aborted]
    of every controller created so far, and [controller] is the index of
    the current one.  [cmdChannelCached] tells whether the client's
    channel cache knows the command channel. *)
Record World : Type := {
  streamStatus : StreamStatus;
  streamOpts : StreamOpts;
  videos : list Video;
  controller : option nat;
  aborted : list bool;
  cmdChannelCached : bool;
  trace : list Effect
}.

(* ================================================================= *)
(** ** Asynchronous programs *)

Inductive Prog (S A : Type) : Type :=
| Ret (a : A)
| Throw (e : Exn)
| Get (k : S -> Prog S A)
| Put (s : S) (k : Prog S A)
| Await (q : Query) (k : Settled (resp q) -> Prog S A)
| Fork (t : Prog S unit) (k : Prog S A).
Arguments Ret {S A} a.
Arguments Throw {S A} e.
Arguments Get {S A} k.
Arguments Put {S A} s k.
Arguments Await {S A} q k.
Arguments Fork {S A} t k.

Fixpoint bind {S A B : Type} (p : Prog S A) (f : A -> Prog S B) : Prog S B :=
  match p with
  | Ret a => f a
  | Throw e => Throw e
  | Get k => Get (fun s => bind (k s) f)
  | Put s k => Put s (bind k f)
  | Await q k => Await q (fun r => bind (k r) f)
  | Fork t k => Fork t (bind k f)
  end.

Declare Scope prog_scope.
Delimit Scope prog_scope with prog.
Notation "x <- p ;; q" := (bind p (fun x => q))
  (at level 61, p at next level, right associativity) : prog_scope.
Notation "p ;; q" := (bind p (fun _ => q))
  (at level 61, right associativity) : prog_scope.
Open Scope prog_scope.

(** [try { body } catch (e) { handler e }] *)
Fixpoint tryCatch {S A : Type} (body : Prog S A) (handler : Exn -> Prog S A) : Prog S A :=
  match body with
  | Ret a => Ret a
  | Throw e => handler e
  | Get k => Get (fun s => tryCatch (k s) handler)
  | Put s k => Put s (tryCatch k handler)
  | Await q k => Await q (fun r => tryCatch (k r) handler)
  | Fork t k => Fork t (tryCatch k handler)
  end.

(** [try { body } finally { fin }]: [fin] runs however [body] completes,
    and an exception of [fin] replaces the completion of [body]. *)
Fixpoint tryFinally {S A : Type} (body : Prog S A) (fin : Prog S unit) : Prog S A :=
  match body with
  | Ret a => fin ;; Ret a
  | Throw e => fin ;; Throw e
  | Get k => Get (fun s => tryFinally (k s) fin)
  | Put s k => Put s (tryFinally k fin)
  | Await q k => Await q (fun r => tryFinally (k r) fin)
  | Fork t k => Fork t (tryFinally k fin)
  end.

(** [await promise]: a rejection is thrown at the [await]. *)
Definition await {S : Type} (q : Query) : Prog S (resp q) :=
  Await q (fun r =>
    match r with
    | Resolved a => Ret a
    | Rejected e => Throw e
    end).

(** [await promise.catch(handler)] *)
Definition awaitCatch {S : Type} (q : Query) (handler : Exn -> Prog S (resp q)) : Prog S (resp q) :=
  Await q (fun r =>
    match r with
    | Resolved a => Ret a
    | Rejected e => handler e
    end).

(** A program on the module state run by a function with local
    variables [L]. *)
Fixpoint liftW {L A : Type} (p : Prog World A) : Prog (World * L) A :=
  match p with
  | Ret a => Ret a
  | Throw e => Throw e
  | Get k => Get (fun s => liftW (k (fst s)))
  | Put w k => Get (fun s => Put (w, snd s) (liftW k))
  | Await q k => Await q (fun r => liftW (k r))
  | Fork t k => Fork (liftW t) (liftW k)
  end.

(** A function body with local variables, started with [l]. *)
Fixpoint withLocals {L A : Type} (p : Prog (World * L) A) (l : L) : Prog World A :=
  match p with
  | Ret a => Ret a
  | Throw e => Throw e
  | Get k => Get (fun w => withLocals (k (w, l)) l)
  | Put s k => Put (fst s) (withLocals k (snd s))
  | Await q k => Await q (fun r => withLocals (k r) l)
  | Fork t k => Fork (withLocals t l) (withLocals k l)
  end.

(* ================================================================= *)
(** ** Access to the module state *)

Definition getW : Prog World World := Get (fun w => Ret w).

Definition modify (f : World -> World) : Prog World unit :=
  Get (fun w => Put (f w) (Ret tt)).

Definition withStatus (st : StreamStatus) (w : World) : World :=
  {| streamStatus := st; streamOpts := streamOpts w; videos := videos w;
     controller := controller w; aborted := aborted w;
     cmdChannelCached := cmdChannelCached w; trace := trace w |}.

Definition withOpts (o : StreamOpts) (w : World) : World :=
  {| streamStatus := streamStatus w; streamOpts := o; videos := videos w;
     controller := controller w; aborted := aborted w;
     cmdChannelCached := cmdChannelCached w; trace := trace w |}.

Definition withController (c : option nat) (flags : list bool) (w : World) : World :=
  {| streamStatus := streamStatus w; streamOpts := streamOpts w; videos := videos w;
     controller := c; aborted := flags;
     cmdChannelCached := cmdChannelCached w; trace := trace w |}.

Definition logged (e : Effect) (w : World) : World :=
  {| streamStatus := streamStatus w; streamOpts := streamOpts w; videos := videos w;
     controller := controller w; aborted := aborted w;
     cmdChannelCached := cmdChannelCached w; trace := trace w ++ [e] |}.

Definition emit (e : Effect) : Prog World unit := modify (logged e).

(** A call that returns a promise, awaited at once. *)
Definition call (q : Query) : Prog World (resp q) := emit (Call q) ;; await q.

Fixpoint setFlag (c : nat) (flags : list bool) : list bool :=
  match c, flags with
  | _, [] => []
  | O, _ :: rest => true :: rest
  | S c', b :: rest => b :: setFlag c' rest
  end.

Definition undefinedController : Exn :=
  TypeError "undefined is not an object (evaluating 'controller.signal')".

(** [controller.signal.aborted] *)
Definition signalAborted : Prog World bool :=
  w <- getW ;;
  match controller w with
  | None => Throw undefinedController
  | Some c => Ret (nth c (aborted w) false)
  end.

Definition abortOf (c : nat) : Prog World unit :=
  modify (fun w => logged (Abort c) (withController (controller w) (setFlag c (aborted w)) w)).

(** [controller?.abort()] *)
Definition abortIfDefined : Prog World unit :=
  w <- getW ;;
  match controller w with
  | None => Ret tt
  | Some c => abortOf c
  end.

(** [controller.abort()] *)
Definition abort : Prog World unit :=
  w <- getW ;;
  match controller w with
  | None => Throw (TypeError "undefined is not an object (evaluating 'controller.abort')")
  | Some c => abortOf c
  end.

(** [if (!controller.signal.aborted) controller.abort()] *)
Definition abortUnlessAborted : Prog World unit :=
  a <- signalAborted ;;
  if negb a then abort else Ret tt.

(** [controller = new AbortController()] *)
Definition newAbortController : Prog World nat :=
  w <- getW ;;
  let c := List.length (aborted w) in
  Put (withController (Some c) (aborted w ++ [false]) w) (Ret c).

(* ================================================================= *)
(** ** Notifications *)

Definition sendPlaying (message : Message) (title : string) : Prog World unit :=
  let content := "📽 **Now Playing**: `" ++ title ++ "`" in
  emit (Call (React message "▶️")) ;;
  emit (Call (Reply message content)) ;;
  await (PromiseAll (React message "▶️") (Reply message content)) ;;
  Ret tt.

Definition finishedText : string := "⏹️ **Finished**: Finished playing video.".

Definition sendFinishMessage : Prog World unit :=
  w <- getW ;;
  if cmdChannelCached w then emit (Call (CmdChannelSend finishedText)) else Ret tt.

Definition sendSuccess (message : Message) (description : string) : Prog World unit :=
  call (React message "✅") ;;
  call (ChannelSend message ("✅ **Success**: " ++ description)).

Definition sendError (message : Message) (error : string) : Prog World unit :=
  call (React message "❌") ;;
  call (Reply message ("❌ **Error**: " ++ error)) ;;
  Ret tt.

(* ================================================================= *)
(** ** cleanupStreamStatus *)

Definition emptyChannelInfo : ChannelInfo :=
  {| ciGuildId := ""; ciChannelId := ""; ciCmdChannelId := "" |}.

Definition resetStatus : StreamStatus :=
  {| joined := false; joinsucc := false; playing := false; manualStop := false;
     channelInfo := emptyChannelInfo |}.

Definition cleanupStreamStatus : Prog World unit :=
  w <- getW ;;
  if manualStop (streamStatus w) then Ret tt
  else
    tryCatch
      (abortIfDefined ;;
       emit StopStream ;;
       emit LeaveVoice ;;
       emit (SetActivity status_idle) ;;
       modify (withStatus resetStatus))
      (fun _ => Ret tt).

(* ================================================================= *)
(** ** index.ts: functions that depend on the configuration *)

Section Bot.

Variable config : Config.

(** [`${config.width}x${config.height}`] *)
Definition targetResolution : string :=
  Js.numToString (width config) ++ "x" ++ Js.numToString (height config).

(** [streams.find(stream => stream.resolution === target) || streams[0]] *)
Definition selectRendition (streams : list TwitchStream) : option TwitchStream :=
  match find (fun stream => String.eqb (resolution stream) targetResolution) streams with
  | Some stream => Some stream
  | None => hd_error streams
  end.

(** [if (stream?.url) return stream.url; ... return null] *)
Definition renditionUrl (stream : option TwitchStream) : option string :=
  match stream with
  | Some s => if Js.truthy (url s) then Some (url s) else None
  | None => None
  end.

Definition getTwitchStreamUrl (link : string) : Prog World (option string) :=
  tryCatch
    (if Js.includes link "/videos/"
     then
       let vodId := Js.splitPop link "/videos/" in
       vodInfo <- call (GetVod vodId) ;;
       let vod := selectRendition vodInfo in
       Ret (renditionUrl vod)
     else
       let twitchId := Js.splitPop link "/" in
       streams <- call (GetStream twitchId) ;;
       let stream := selectRendition streams in
       Ret (renditionUrl stream))
    (fun _ => Ret None).

(** The local variables of [playVideo]. *)
Record PlayLocals : Type := {
  inputForFfmpeg : string;
  tempFilePath : option string;
  downloadInProgressMessage : option Message;
  isLiveYouTubeStream : bool
}.

Definition PlayState : Type := (World * PlayLocals)%type.

Definition getL : Prog PlayState PlayLocals := Get (fun s => Ret (snd s)).

Definition setL (f : PlayLocals -> PlayLocals) : Prog PlayState unit :=
  Get (fun s => Put (fst s, f (snd s)) (Ret tt)).

Definition isYoutube (videoSource : string) : bool :=
  Js.includes videoSource "youtube.com/" || Js.includes videoSource "youtu.be/".

(** [videoDetails?.videoDetails?.isLiveContent] *)
Definition liveContent (info : option VideoInfo) : bool :=
  match info with
  | Some info =>
      match videoDetails info with
      | Some d => isLiveContent d
      | None => false
      end
  | None => false
  end.

Definition downloadFormat (h : Js.number) : string :=
  let h := Js.numToString (Js.numOr h (Js.Int 720)) in
  "bestvideo[height<=" ++ h ++ "][ext=mp4]+bestaudio[ext=m4a]/bestvideo[height<="
    ++ h ++ "]+bestaudio/best[height<=" ++ h ++ "]/best".

Definition exnMessage (e : Exn) : string :=
  match e with
  | Error msg => msg
  | TypeError msg => msg
  end.

(** How a block completes when it does not throw: by reaching its end or
    by a [return] statement. *)
Inductive Completion : Type :=
| Normal
| Return.

(** Lines 940-986: the input of ffmpeg for a YouTube link. *)
Definition resolveYoutube (message : Message) (videoSource : string)
    (title : option string) : Prog PlayState Completion :=
  videoDetails <- liftW (call (GetVideoInfo videoSource)) ;;
  if liveContent videoDetails then
    setL (fun l => {| inputForFfmpeg := inputForFfmpeg l; tempFilePath := tempFilePath l;
                      downloadInProgressMessage := downloadInProgressMessage l;
                      isLiveYouTubeStream := true |}) ;;
    liveStreamUrl <- liftW (call (GetLiveStreamUrl videoSource)) ;;
    if Js.truthyOpt liveStreamUrl then
      setL (fun l => {| inputForFfmpeg := Js.orElseOpt liveStreamUrl "";
                        tempFilePath := tempFilePath l;
                        downloadInProgressMessage := downloadInProgressMessage l;
                        isLiveYouTubeStream := isLiveYouTubeStream l |}) ;;
      Ret Normal
    else
      liftW (sendError message
               ("Failed to get live stream URL for `"
                  ++ Js.orElseOpt title "YouTube live video" ++ "`.")) ;;
      liftW cleanupStreamStatus ;;
      Ret Return
  else
    let downloading := Reply message ("📥 Downloading `" ++ Js.orElseOpt title "YouTube video" ++ "`...") in
    liftW (emit (Call downloading)) ;;
    sent <- Await downloading (fun r =>
              match r with
              | Resolved reply => Ret (Some reply)
              | Rejected _ => Ret None
              end) ;;
    setL (fun l => {| inputForFfmpeg := inputForFfmpeg l; tempFilePath := tempFilePath l;
                      downloadInProgressMessage := sent;
                      isLiveYouTubeStream := isLiveYouTubeStream l |}) ;;
    w <- liftW getW ;;
    let format := downloadFormat (soHeight (streamOpts w)) in
    tryCatch
      (file <- liftW (call (DownloadToTempFile videoSource format)) ;;
       setL (fun l => {| inputForFfmpeg := file; tempFilePath := Some file;
                         downloadInProgressMessage := downloadInProgressMessage l;
                         isLiveYouTubeStream := isLiveYouTubeStream l |}) ;;
       l <- getL ;;
       match downloadInProgressMessage l with
       | Some reply =>
           liftW (emit (Call (Delete reply))) ;;
           awaitCatch (Delete reply) (fun _ => Ret tt) ;;
           Ret Normal
       | None => Ret Normal
       end)
      (fun downloadError =>
         l <- getL ;;
         match downloadInProgressMessage l with
         | Some reply =>
             let failed := Edit reply ("❌ Failed to download `" ++ Js.orElseOpt title "YouTube video" ++ "`.") in
             liftW (emit (Call failed)) ;;
             awaitCatch failed (fun _ => Ret tt)
         | None =>
             liftW (sendError message ("Failed to download video: " ++ exnMessage downloadError))
         end ;;
         liftW cleanupStreamStatus ;;
         Ret Return).

(** The [.catch] handler of [playStream] (lines 1015-1020). *)
Definition playStreamFailed (err : Exn) : Prog PlayState unit :=
  _ <- liftW signalAborted ;;
  liftW abortUnlessAborted.

(** Lines 1022-1024: what follows [playStream] in the [try] block. *)
Definition afterPlayStream : Prog PlayState unit :=
  _ <- liftW signalAborted ;;
  Ret tt.

(** Lines 988-1024: join the voice channel, start ffmpeg and stream. *)
Definition joinAndStream (message : Message) (videoSource : string)
    (title : option string) : Prog PlayState unit :=
  liftW (call (JoinVoice (guildId config) (videoChannelId config))) ;;
  liftW (modify (fun w =>
    withStatus {| joined := true; joinsucc := joinsucc (streamStatus w);
                  playing := true; manualStop := manualStop (streamStatus w);
                  channelInfo := {| ciGuildId := guildId config;
                                    ciChannelId := videoChannelId config;
                                    ciCmdChannelId := cmdChannelId config |} |} w)) ;;
  (if Js.truthyOpt title
   then liftW (emit (SetActivity (status_watch (Js.orElseOpt title ""))))
   else Ret tt) ;;
  liftW (sendPlaying message (Js.orElseOpt title videoSource)) ;;
  liftW abortIfDefined ;;
  c <- liftW newAbortController ;;
  l <- getL ;;
  w <- liftW getW ;;
  liftW (emit (PrepareStream (inputForFfmpeg l) (streamOpts w) c)) ;;
  liftW (emit (Call (PlayStream (inputForFfmpeg l) c))) ;;
  awaitCatch (PlayStream (inputForFfmpeg l) c) playStreamFailed ;;
  afterPlayStream.

(** Lines 1026-1029: the [catch] block. *)
Definition playVideoCatch (error : Exn) : Prog PlayState unit :=
  a <- liftW signalAborted ;;
  if negb a then liftW abortIfDefined else Ret tt.

(** Lines 1029-1045: the [finally] block. *)
Definition playVideoFinally : Prog PlayState unit :=
  w <- liftW getW ;;
  (if negb (manualStop (streamStatus w))
   then
     a <- liftW signalAborted ;;
     if negb a then liftW sendFinishMessage else Ret tt
   else Ret tt) ;;
  liftW cleanupStreamStatus ;;
  l <- getL ;;
  if Js.truthyOpt (tempFilePath l) && negb (isLiveYouTubeStream l)
  then liftW (emit (UnlinkSync (Js.orElseOpt (tempFilePath l) "")))
  else Ret tt.

(** The [try] statement of [playVideo] from the point [p] of its [try]
    block on, the local variables being [l]. *)
Definition playVideoFrom (p : Prog PlayState unit) (l : PlayLocals) : Prog World unit :=
  withLocals (tryFinally (tryCatch p playVideoCatch) playVideoFinally) l.

Definition playVideo (message : Message) (videoSource : string)
    (title : option string) : Prog World unit :=
  modify (fun w =>
    withStatus {| joined := joined (streamStatus w); joinsucc := joinsucc (streamStatus w);
                  playing := playing (streamStatus w); manualStop := false;
                  channelInfo := channelInfo (streamStatus w) |} w) ;;
  playVideoFrom
    (c <- (if isYoutube videoSource
           then resolveYoutube message videoSource title
           else Ret Normal) ;;
     match c with
     | Return => Ret tt
     | Normal => joinAndStream message videoSource title
     end)
    {| inputForFfmpeg := videoSource; tempFilePath := None;
       downloadInProgressMessage := None; isLiveYouTubeStream := false |}.

(** The ['error'] listener of the ffmpeg command (lines 1003-1008). *)
Definition onFfmpegError : Prog World unit := abortUnlessAborted.

(* ----------------------------------------------------------------- *)
(** *** The [messageCreate] handler *)

(** The commands that start or stop playback. *)
Inductive Command : Type :=
| play
| playlink
| ytplay
| jfplay
| stop.

(** A call whose promise is not awaited. *)
Definition detached (t : Prog World unit) : Prog World unit := Fork t (Ret tt).

(** [Math.floor(Number(bitrate) / 1000)] *)
Definition kbps (bitrate : option Z) : Js.number :=
  match bitrate with
  | Some b => Js.Int (b / 1000)
  | None => Js.NaN
  end.

Definition respectVideoParams (resolution : VideoParams) (o : StreamOpts) : StreamOpts :=
  {| soHeight := vpHeight resolution;
     soWidth := vpWidth resolution;
     soBitrateVideo :=
       match vpBitrate resolution with
       | Some _ => kbps (vpBitrate resolution)
       | None => soBitrateVideo o
       end;
     soBitrateVideoMax :=
       match vpMaxbitrate resolution with
       | Some _ => kbps (vpBitrate resolution)
       | None => soBitrateVideoMax o
       end;
     soFrameRate := if Js.numTruthy (vpFps resolution) then vpFps resolution else soFrameRate o |}.

Definition onPlay (message : Message) (args : list string) : Prog World unit :=
  w <- getW ;;
  if joined (streamStatus w) then detached (sendError message "Already joined")
  else
    let videoname := hd_error args in
    let video :=
      match videoname with
      | Some v => find (fun m => String.eqb (name m) v) (videos w)
      | None => None
      end in
    match video with
    | None => sendError message "Video not found"
    | Some video =>
        (if respect_video_params config
         then
           tryCatch
             (resolution <- call (GetVideoParams (path video)) ;;
              modify (fun w => withOpts (respectVideoParams resolution (streamOpts w)) w))
             (fun _ => Ret tt)
         else Ret tt) ;;
        detached (sendPlaying message (Js.orElseOpt videoname "Local Video")) ;;
        detached (playVideo message (path video) videoname)
    end.

Definition onPlaylink (message : Message) (args : list string) : Prog World unit :=
  w <- getW ;;
  if joined (streamStatus w) then detached (sendError message "Already joined")
  else
    let link := Js.orElseOpt (hd_error args) "" in
    if negb (Js.truthy link) then sendError message "Please provide a link."
    else if isYoutube link then
      tryCatch
        (videoDetails <- call (GetVideoInfo link) ;;
         match videoDetails with
         | Some info =>
             if Js.truthy (viTitle info)
             then detached (playVideo message link (Some (viTitle info)))
             else sendError message "Failed to process YouTube link."
         | None => sendError message "Failed to process YouTube link."
         end)
        (fun _ => sendError message "Error processing YouTube link.")
    else if Js.includes link "twitch.tv" then
      let twitchId := Js.splitPop link "/" in
      twitchUrl <- getTwitchStreamUrl link ;;
      match twitchUrl with
      | Some u =>
          detached (sendPlaying message (twitchId ++ "'s Twitch Stream")) ;;
          detached (playVideo message u (Some ("twitch.tv/" ++ twitchId)))
      | None => Ret tt
      end
    else
      detached (sendPlaying message "URL") ;;
      detached (playVideo message link (Some "URL")).

(** [args.length > 1 ? args.slice(1).join(' ') : args[1] || args.shift() || ''] *)
Definition ytTitle (args : list string) : string :=
  if Nat.ltb 1 (List.length args) then Js.join " " (tl args)
  else Js.orElseOpt (nth_error args 1) (Js.orElseOpt (hd_error args) "").

Definition onYtplay (message : Message) (args : list string) : Prog World unit :=
  let title := ytTitle args in
  if negb (Js.truthy title) then sendError message "Please provide a video title."
  else
    tryCatch
      (call (YtsSearch title) ;;
       searchResult <- call (SearchAndGetPageUrl title) ;;
       if Js.truthyOpt (pageUrl searchResult) && Js.truthyOpt (srTitle searchResult)
       then detached (playVideo message (Js.orElseOpt (pageUrl searchResult) "") (srTitle searchResult))
       else Throw (Error "Could not find video"))
      (fun _ =>
         cleanupStreamStatus ;;
         sendError message "Failed to play video. Please try again.").

(** [jellyfinAPIClient.getDisplayName(item)] *)
Definition getDisplayName (item : JellyfinItem) : string :=
  let orQuestion n := if Js.numTruthy n then Js.numToString n else "?" in
  let displayName :=
    if String.eqb (itemType item) "Episode" && Js.truthyOpt (seriesName item)
    then Js.orElseOpt (seriesName item) "" ++ " - S" ++ orQuestion (parentIndexNumber item)
           ++ "E" ++ orQuestion (indexNumber item) ++ ": " ++ itemName item
    else itemName item in
  if Js.numTruthy (productionYear item)
  then displayName ++ " (" ++ Js.numToString (productionYear item) ++ ")"
  else displayName.

(** [jellyfinAPIClient] is created when [config.jellyfin_enabled] holds
    and is [null] otherwise. *)
Definition onJfplay (message : Message) (args : list string) : Prog World unit :=
  if negb (jellyfin_enabled config) then sendError message "Jellyfin integration is not enabled"
  else
    w <- getW ;;
    if joined (streamStatus w) then detached (sendError message "Already joined")
    else
      match hd_error args with
      | None => sendError message "Please provide a Jellyfin item ID"
      | Some itemId =>
          if negb (Js.truthy itemId) then sendError message "Please provide a Jellyfin item ID"
          else
            tryCatch
              (streamInfo <- call (GetStreamInfo itemId) ;;
               match streamInfo with
               | None => sendError message "Failed to get stream information for this item"
               | Some streamInfo =>
                   item <- call (GetItem itemId) ;;
                   let displayName :=
                     match item with
                     | Some item => getDisplayName item
                     | None => "Jellyfin Item " ++ itemId
                     end in
                   sendPlaying message displayName ;;
                   detached (playVideo message (streamUrl streamInfo) (Some displayName))
               end)
              (fun error => sendError message ("Failed to play item: " ++ exnMessage error))
      end.

Definition onStop (message : Message) : Prog World unit :=
  w <- getW ;;
  if negb (joined (streamStatus w)) then detached (sendError message "**Already Stopped!**")
  else
    tryCatch
      (modify (fun w =>
         withStatus {| joined := joined (streamStatus w); joinsucc := joinsucc (streamStatus w);
                       playing := playing (streamStatus w); manualStop := true;
                       channelInfo := channelInfo (streamStatus w) |} w) ;;
       abortIfDefined ;;
       sendSuccess message "Stopped playing video." ;;
       emit StopStream ;;
       emit LeaveVoice ;;
       emit (SetActivity status_idle) ;;
       modify (fun w =>
         withStatus {| joined := false; joinsucc := false; playing := false;
                       manualStop := manualStop (streamStatus w);
                       channelInfo := emptyChannelInfo |} w))
      (fun _ => Ret tt).

(** The [switch (user_cmd)] of the handler, for a message that passed
    its filter; [args] are the words after the command. *)
Definition messageCreate (message : Message) (user_cmd : Command)
    (args : list string) : Prog World unit :=
  match user_cmd with
  | play => onPlay message args
  | playlink => onPlaylink message args
  | ytplay => onYtplay message args
  | jfplay => onJfplay message args
  | stop => onStop message
  end.

(* ----------------------------------------------------------------- *)
(** *** The [voiceStateUpdate] handler *)

(** A voice state: whether it is the state of the client's own user,
    and its channel and guild. *)
Record VoiceState : Type := {
  isSelf : bool;
  vsChannelId : option string;
  vsGuildId : string
}.

Definition configChannelInfo : ChannelInfo :=
  {| ciGuildId := guildId config; ciChannelId := videoChannelId config;
     ciCmdChannelId := cmdChannelId config |}.

Definition voiceStateUpdate (oldState newState : VoiceState) : Prog World unit :=
  (if isSelf oldState && Js.truthyOpt (vsChannelId oldState)
        && negb (Js.truthyOpt (vsChannelId newState))
   then
     modify (fun w =>
       withStatus {| joined := false; joinsucc := false; playing := false;
                     manualStop := manualStop (streamStatus w);
                     channelInfo := configChannelInfo |} w) ;;
     emit (SetActivity status_idle)
   else Ret tt) ;;
  if isSelf newState && Js.truthyOpt (vsChannelId newState)
       && negb (Js.truthyOpt (vsChannelId oldState))
  then
    modify (fun w =>
      let st := streamStatus w in
      withStatus {| joined := true;
                    joinsucc :=
                      if String.eqb (vsGuildId newState) (ciGuildId (channelInfo st))
                           && String.eqb (Js.orElseOpt (vsChannelId newState) "")
                                         (ciChannelId (channelInfo st))
                      then true else joinsucc st;
                    playing := playing st; manualStop := manualStop st;
                    channelInfo := channelInfo st |} w)
  else Ret tt.

(** The module state when the process starts. *)
Definition initialWorld (files : list Video) (cached : bool) : World :=
  {| streamStatus := {| joined := false; joinsucc := false; playing := false;
                        manualStop := false; channelInfo := configChannelInfo |};
     streamOpts := {| soWidth := width config; soHeight := height config;
                      soFrameRate := fps config; soBitrateVideo := bitrateKbps config;
                      soBitrateVideoMax := maxBitrateKbps config |};
     videos := files;
     controller := None;
     aborted := [];
     cmdChannelCached := cached;
     trace := [] |}.

End Bot.

(* ================================================================= *)
(** ** The event loop *)

(** A suspended function: the promise it awaits and what it does when
    the promise settles. *)
Record Pending : Type := {
  awaited : Query;
  resume : Settled (resp awaited) -> Prog World unit
}.

Record Sys : Type := {
  world : World;
  pending : list Pending
}.

(** Run a program until it returns, throws or is suspended.  An
    exception that nothing catches is reported ([UnhandledRejection]). *)
Fixpoint exec (p : Prog World unit) (s : Sys) : Sys :=
  match p with
  | Ret _ => s
  | Throw e => {| world := logged (UnhandledRejection e) (world s); pending := pending s |}
  | Get k => exec (k (world s)) s
  | Put w k => exec k {| world := w; pending := pending s |}
  | Await q k => {| world := world s; pending := pending s ++ [{| awaited := q; resume := k |}] |}
  | Fork t k => exec k (exec t s)
  end.

(** The collaborators: how each promise settles. *)
Definition Oracle : Type := forall q : Query, Settled (resp q).

Inductive Event : Type :=
| MessageCreate (message : Message) (user_cmd : Command) (args : list string)
| VoiceStateUpdate (oldState newState : VoiceState)
| Settle (i : nat) (o : Oracle)
| FfmpegError.

Fixpoint takeNth {A : Type} (i : nat) (l : list A) : option (A * list A) :=
  match i, l with
  | _, [] => None
  | O, x :: rest => Some (x, rest)
  | S i', x :: rest =>
      match takeNth i' rest with
      | Some (y, rest') => Some (y, x :: rest')
      | None => None
      end
  end.

Definition isPrepareStream (e : Effect) : bool :=
  match e with
  | PrepareStream _ _ _ => true
  | _ => false
  end.

Section EventLoop.

Variable config : Config.

(** One turn of the event loop.  [Settle i o] settles the promise that
    the [i]-th suspended function awaits; [FfmpegError] is the ['error']
    event of an ffmpeg command, which exists once [prepareStream] has
    run. *)
Definition step (s : Sys) (ev : Event) : Sys :=
  match ev with
  | MessageCreate message user_cmd args => exec (messageCreate config message user_cmd args) s
  | VoiceStateUpdate oldState newState => exec (voiceStateUpdate config oldState newState) s
  | Settle i o =>
      match takeNth i (pending s) with
      | Some (p, rest) => exec (resume p (o (awaited p))) {| world := world s; pending := rest |}
      | None => s
      end
  | FfmpegError =>
      if existsb isPrepareStream (trace (world s)) then exec onFfmpegError s else s
  end.

Definition run (s : Sys) (evs : list Event) : Sys := fold_left step evs s.

Definition start (w : World) : Sys := {| world := w; pending := [] |}.

End EventLoop.

(** Collaborators that fulfil every promise, with an empty answer where
    one is expected. *)
Definition fulfilled : Oracle :=
  fun q =>
    match q as q' return Settled (resp q') with
    | React _ _ => Resolved tt
    | Reply m _ => Resolved {| msgId := S (msgId m) |}
    | ChannelSend _ _ => Resolved tt
    | CmdChannelSend _ => Resolved tt
    | Edit _ _ => Resolved tt
    | Delete _ => Resolved tt
    | PromiseAll _ _ => Resolved tt
    | GetVideoInfo _ => Resolved None
    | GetLiveStreamUrl _ => Resolved None
    | DownloadToTempFile _ _ => Resolved ""
    | GetVideoParams _ =>
        Resolved {| vpWidth := Js.NaN; vpHeight := Js.NaN; vpBitrate := None;
                    vpMaxbitrate := None; vpFps := Js.NaN |}
    | YtsSearch _ => Resolved tt
    | SearchAndGetPageUrl _ => Resolved {| pageUrl := None; srTitle := None |}
    | GetVod _ => Resolved []
    | GetStream _ => Resolved []
    | GetStreamInfo _ => Resolved None
    | GetItem _ => Resolved None
    | JoinVoice _ _ => Resolved tt
    | PlayStream _ _ => Resolved tt
    end.


(** Run a function on its own: every promise it awaits settles as the
    collaborators [o] say, and no other event is taken in between.
    Defined for programs that make no detached call. *)
Inductive Outcome (A : Type) : Type :=
| Returned (a : A)
| Thrown (e : Exn).
Arguments Thrown {A} e.

Fixpoint runAlone {A : Type} (o : Oracle) (p : Prog World A) (w : World)
  : option (World * Outcome A) :=
  match p with
  | Ret a => Some (w, Returned a)
  | Throw e => Some (w, Thrown e)
  | Get k => runAlone o (k w) w
  | Put w' k => runAlone o k w'
  | Await q k => runAlone o (k (o q)) w
  | Fork _ _ => None
  end.

(** The answer of the playlist collaborator that [getTwitchStreamUrl]
    asks for [link]: [getVod] for a VOD link, [getStream] otherwise. *)
Definition playlistLookup (o : Oracle) (link : string) : Settled (list TwitchStream) :=
  if Js.includes link "/videos/"
  then o (GetVod (Js.splitPop link "/videos/"))
  else o (GetStream (Js.splitPop link "/")).

(** The reply of the [stop] command when nothing is joined. *)
Definition alreadyStopped : string := "❌ **Error**: **Already Stopped!**".

(* ================================================================= *)
(** ** Reading a trace *)

(** The current controller, when there is one, is one of the
    controllers created so far. *)
Definition wellFormed (w : World) : Prop :=
  match controller w with
  | Some c => c < List.length (aborted w)
  | None => True
  end.

(** The inputs that ffmpeg was started on. *)
Fixpoint pipelineInputs (tr : list Effect) : list string :=
  match tr with
  | [] => []
  | PrepareStream input _ _ :: rest => input :: pipelineInputs rest
  | _ :: rest => pipelineInputs rest
  end.

(** The links that the downloader was asked for. *)
Fixpoint downloads (tr : list Effect) : list string :=
  match tr with
  | [] => []
  | Call (DownloadToTempFile link _) :: rest => link :: downloads rest
  | _ :: rest => downloads rest
  end.

(** The files whose deletion was asked for. *)
Fixpoint unlinks (tr : list Effect) : list string :=
  match tr with
  | [] => []
  | UnlinkSync file :: rest => file :: unlinks rest
  | _ :: rest => unlinks rest
  end.

(** The requests to join a voice channel. *)
Fixpoint joins (tr : list Effect) : list (string * string) :=
  match tr with
  | [] => []
  | Call (JoinVoice g c) :: rest => (g, c) :: joins rest
  | _ :: rest => joins rest
  end.

(** The notifications that report how a playback attempt ended. *)
Inductive Terminal : Type :=
| Finished
| Stopped
| Failed (text : string).

Definition stoppedText : string := "✅ **Success**: Stopped playing video.".

Definition terminalOf (e : Effect) : option Terminal :=
  match e with
  | Call (CmdChannelSend text) =>
      if String.eqb text finishedText then Some Finished else None
  | Call (ChannelSend _ text) =>
      if String.eqb text stoppedText then Some Stopped else None
  | Call (Reply _ text) =>
      if String.prefix "❌ **Error**: " text then Some (Failed text) else None
  | Call (Edit _ text) =>
      if String.prefix "❌ Failed to download" text then Some (Failed text) else None
  | _ => None
  end.

Fixpoint terminalNotifications (tr : list Effect) : list Terminal :=
  match tr with
  | [] => []
  | e :: rest =>
      match terminalOf e with
      | Some t => t :: terminalNotifications rest
      | None => terminalNotifications rest
      end
  end.

(** The text of [sendError] and of [sendPlaying]. *)
Definition errorText (error : string) : string := "❌ **Error**: " ++ error.
Definition playingText (title : string) : string := "📽 **Now Playing**: `" ++ title ++ "`".

Definition liveUrlError (title : option string) : string :=
  errorText ("Failed to get live stream URL for `"
               ++ Js.orElseOpt title "YouTube live video" ++ "`.").

Definition downloadingText (title : option string) : string :=
  "📥 Downloading `" ++ Js.orElseOpt title "YouTube video" ++ "`...".

Definition downloadFailedText (title : option string) : string :=
  "❌ Failed to download `" ++ Js.orElseOpt title "YouTube video" ++ "`.".

(* ================================================================= *)
(** ** A configuration and collaborators for the examples *)

(** The case mappings of the ASCII letters.  On text made of ASCII
    characters [toUpperCase] and [toLowerCase] are these functions; the
    examples use them. *)
Definition upperChar (c : ascii) : ascii :=
  let n := nat_of_ascii c in
  if Nat.leb 97 n && Nat.leb n 122 then ascii_of_nat (n - 32) else c.

Fixpoint asciiUpperCase (s : string) : string :=
  match s with
  | EmptyString => EmptyString
  | String c s' => String (upperChar c) (asciiUpperCase s')
  end.

Definition lowerChar (c : ascii) : ascii :=
  let n := nat_of_ascii c in
  if Nat.leb 65 n && Nat.leb n 90 then ascii_of_nat (n + 32) else c.

Fixpoint asciiLowerCase (s : string) : string :=
  match s with
  | EmptyString => EmptyString
  | String c s' => String (lowerChar c) (asciiLowerCase s')
  end.

(** The no-break space, U+00A0. *)
Definition nbsp : string := String (ascii_of_nat 194) (String (ascii_of_nat 160) "").

(** The defaults of config.ts, with identifiers for the guild and the
    channels. *)
Definition exampleConfig : Config :=
  {| prefix := "$"; guildId := "guild"; cmdChannelId := "commands";
     videoChannelId := "voice"; respect_video_params := false;
     width := Js.Int 1280; height := Js.Int 720; fps := Js.Int 30;
     bitrateKbps := Js.Int 1000; maxBitrateKbps := Js.Int 2500;
     jellyfin_enabled := false |}.

Definition vodInfo : VideoInfo :=
  {| viTitle := "Talk"; videoDetails := Some {| isLiveContent := false |} |}.

(** A YouTube video that is not live and whose download fails. *)
Definition downloadFails : Oracle :=
  fun q =>
    match q as q' return Settled (resp q') with
    | GetVideoInfo _ => Resolved (Some vodInfo)
    | DownloadToTempFile _ _ => Rejected (Error "ERROR: unable to download video data")
    | q' => fulfilled q'
    end.

(** A YouTube video that is not live and is downloaded, while the voice
    channel cannot be joined. *)
Definition joinFails : Oracle :=
  fun q =>
    match q as q' return Settled (resp q') with
    | GetVideoInfo _ => Resolved (Some vodInfo)
    | DownloadToTempFile _ _ => Resolved "/tmp/yt-dlp-1.mp4"
    | JoinVoice _ _ => Rejected (Error "Unknown Channel")
    | q' => fulfilled q'
    end.

(** A YouTube video that is not live and is downloaded. *)
Definition downloadSucceeds : Oracle :=
  fun q =>
    match q as q' return Settled (resp q') with
    | GetVideoInfo _ => Resolved (Some vodInfo)
    | DownloadToTempFile _ _ => Resolved "/tmp/yt-dlp-1.mp4"
    | q' => fulfilled q'
    end.

(** Every promise is rejected. *)
Definition rejected : Oracle := fun q => Rejected (Error "failed").

(** A playback attempt on [videoSource] that has joined the voice
    channel and started ffmpeg: [playVideo] is called, [joinVoice] and
    the "Now Playing" notification settle as [o] says, and the function
    awaits [playStream]. *)
Definition streaming (config : Config) (o : Oracle) (message : Message)
    (videoSource : string) (title : option string) (w : World) : Sys :=
  run config (exec (playVideo config message videoSource title) (start w))
      [Settle 0 o; Settle 0 o].

(** [playVideo] suspended at [await playStream(...)]: what it does when
    the promise settles. *)
Definition streamingWith (input : string) (c : nat) (l : PlayLocals) : Pending :=
  {| awaited := PlayStream input c;
     resume := fun r =>
       playVideoFrom
         (match r with
          | Resolved a => Ret a
          | Rejected e => playStreamFailed e
          end ;;
          afterPlayStream) l |}.

(** A playback attempt streams: [playVideo] is suspended at
    [await playStream(...)] with the local variables [l] and nothing
    else is suspended; ffmpeg has been started on a signal of the
    current controller, which is not aborted; the stop is not marked as
    manual and the session is joined. *)
Definition streams (s : Sys) (input : string) (c : nat) (l : PlayLocals) : Prop :=
  pending s = [streamingWith input c l]
  /\ controller (world s) = Some c
  /\ c < List.length (aborted (world s))
  /\ nth c (aborted (world s)) false = false
  /\ manualStop (streamStatus (world s)) = false
  /\ joined (streamStatus (world s)) = true
  /\ existsb isPrepareStream (trace (world s)) = true.



(** The state after a first session has ended by itself: nothing is
    joined and a controller exists. *)
Definition afterFirstSession : World :=
  world (run exampleConfig
           (run exampleConfig (start (initialWorld exampleConfig [] true))
              [MessageCreate {| msgId := 1 |} playlink ["http://example.com/a.mp4"];
               Settle 1 fulfilled; Settle 0 fulfilled; Settle 0 fulfilled])
           [Settle 0 fulfilled]).

(** A YouTube video that is live; the lookup of its manifest fails. *)
Definition liveLookupFails : Oracle :=
  fun q =>
    match q as q' return Settled (resp q') with
    | GetVideoInfo _ =>
        Resolved (Some {| viTitle := "Live"; videoDetails := Some {| isLiveContent := true |} |})
    | GetLiveStreamUrl _ => Rejected (Error "Unable to extract the manifest")
    | q' => fulfilled q'
    end.

(** The status that the [stop] command leaves. *)
Definition stoppedStatus : StreamStatus :=
  {| joined := false; joinsucc := false; playing := false; manualStop := true;
     channelInfo := emptyChannelInfo |}.

(** The effects of [controller?.abort()]. *)
Definition abortEffects (w : World) : list Effect :=
  match controller w with
  | Some c => [Abort c]
  | None => []
  end.

Definition abortedFlags (w : World) : list bool :=
  match controller w with
  | Some c => setFlag c (aborted w)
  | None => aborted w
  end.

(** Between [before] and [after] the teardown of the [stop] command has
    run: the stop is marked as manual, the stream is stopped and the
    voice channel is left. *)
Definition teardownBetween (before after : Sys) : Prop :=
  exists suffix,
    trace (world after) = (trace (world before) ++ suffix)%list
    /\ manualStop (streamStatus (world after)) = true
    /\ In StopStream suffix
    /\ In LeaveVoice suffix.

(** The messages and the link of the examples. *)
Definition playMessage : Message := {| msgId := 1 |}.
Definition stopMessage : Message := {| msgId := 10 |}.
Definition youtubeLink : string := "https://youtu.be/abc".
Definition directLink : string := "http://example.com/a.mp4".

(** The process has just started; the command channel is cached. *)
Definition bootWorld : World := initialWorld exampleConfig [] true.

(** [playlink] on a YouTube video that is not live, up to the point
    where the download is in flight. *)
Definition downloading : Sys :=
  run exampleConfig (start bootWorld)
      [MessageCreate playMessage playlink [youtubeLink];
       Settle 0 downloadSucceeds; Settle 0 downloadSucceeds; Settle 0 downloadSucceeds].

(** [playlink] on a direct link, up to the point where the stream is
    running: the session is joined and [playVideo] awaits [playStream]. *)
Definition activeSession : Sys :=
  run exampleConfig (start bootWorld)
      [MessageCreate playMessage playlink [directLink];
       Settle 1 fulfilled; Settle 0 fulfilled; Settle 0 fulfilled].

Definition secondMessage : Message := {| msgId := 20 |}.

(** The search finds a YouTube video, which is not live and is
    downloaded. *)
Definition searchFinds : Oracle :=
  fun q =>
    match q as q' return Settled (resp q') with
    | SearchAndGetPageUrl _ =>
        Resolved {| pageUrl := Some "https://www.youtube.com/watch?v=cats";
                    srTitle := Some "Cats" |}
    | GetVideoInfo _ => Resolved (Some vodInfo)
    | DownloadToTempFile _ _ => Resolved "/tmp/yt-dlp-1.mp4"
    | q' => fulfilled q'
    end.

(** The renditions of the two Twitch examples of the specification. *)
Definition twoRenditions : list TwitchStream :=
  [{| quality := "720p60"; resolution := "1280x720";
      url := "https://video.example/720p60.m3u8" |};
   {| quality := "1080p60"; resolution := "1920x1080";
      url := "https://video.example/1080p60.m3u8" |}].

Definition lowRendition : list TwitchStream :=
  [{| quality := "360p30"; resolution := "640x360";
      url := "https://video.example/360p30.m3u8" |}].

(** A playlist as Twitch gives it, best rendition first: the rendition
    of 1280x720 is the second of three. *)
Definition sourceFirst : list TwitchStream :=
  [{| quality := "1080p60"; resolution := "1920x1080";
      url := "https://video.example/1080p60.m3u8" |};
   {| quality := "720p60"; resolution := "1280x720";
      url := "https://video.example/720p60.m3u8" |};
   {| quality := "360p30"; resolution := "640x360";
      url := "https://video.example/360p30.m3u8" |}].

(** A playlist without a rendition of 1280x720. *)
Definition withoutTarget : list TwitchStream :=
  [{| quality := "480p30"; resolution := "852x480";
      url := "https://video.example/480p30.m3u8" |};
   {| quality := "360p30"; resolution := "640x360";
      url := "https://video.example/360p30.m3u8" |}].

(** The playlist collaborator returns [streams]. *)
Definition playlistOf (streams : list TwitchStream) : Oracle :=
  fun q =>
    match q as q' return Settled (resp q') with
    | GetVod _ => Resolved streams
    | GetStream _ => Resolved streams
    | q' => fulfilled q'
    end.

Definition twitchLink : string := "https://www.twitch.tv/somebody".

(** A YouTube video that is live, with its manifest. *)
Definition liveInfo : VideoInfo :=
  {| viTitle := "Live"; videoDetails := Some {| isLiveContent := true |} |}.

Definition liveManifest : string := "https://manifest.example/live.m3u8".

Definition liveStream : Oracle :=
  fun q =>
    match q as q' return Settled (resp q') with
    | GetVideoInfo _ => Resolved (Some liveInfo)
    | GetLiveStreamUrl _ => Resolved (Some liveManifest)
    | q' => fulfilled q'
    end.

(* ================================================================= *)
(** ** config.ts: the other parsers *)

Section LowerCase.

(** [String.prototype.toLowerCase] *)
Variable toLowerCase : string -> string.

(** The argument is the value of [STREAM_H26X_PRESET]. *)
Definition parsePreset (value : string) : string :=
  let value := toLowerCase (Js.trim value) in
  if String.eqb value "ultrafast" || String.eqb value "superfast"
     || String.eqb value "veryfast" || String.eqb value "faster"
     || String.eqb value "fast" || String.eqb value "medium"
     || String.eqb value "slow" || String.eqb value "slower"
     || String.eqb value "veryslow"
  then value
  else "ultrafast".

(** The argument is [string | undefined]. *)
Definition parseBoolean (value : option string) : bool :=
  match value with
  | Some s => String.eqb (toLowerCase (Js.trim s)) "true"
  | None => false
  end.

End LowerCase.

(** The nine presets of x264 and x265. *)
Definition presets : list string :=
  ["ultrafast"; "superfast"; "veryfast"; "faster"; "fast"; "medium"; "slow";
   "slower"; "veryslow"].

(* ================================================================= *)
(** ** More readers of a trace *)



(** The effects of the body of [cleanupStreamStatus]. *)
Definition cleanupEffects (w : World) : list Effect :=
  (abortEffects w ++ [StopStream; LeaveVoice; SetActivity status_idle])%list.


(** The "Now Playing" replies. *)
Fixpoint playingNotices (tr : list Effect) : list string :=
  match tr with
  | [] => []
  | Call (Reply _ text) :: rest =>
      if String.prefix "📽 **Now Playing**: " text
      then text :: playingNotices rest
      else playingNotices rest
  | _ :: rest => playingNotices rest
  end.

(** The options that ffmpeg was started with. *)
Fixpoint pipelineOptions (tr : list Effect) : list StreamOpts :=
  match tr with
  | [] => []
  | PrepareStream _ opts _ :: rest => opts :: pipelineOptions rest
  | _ :: rest => pipelineOptions rest
  end.

(* ================================================================= *)
(** ** index.ts: from a message to a command *)

(** [s.split(/ +/)]: the pieces of [s] between its runs of spaces; a
    run at the start or at the end of [s] gives an empty piece. *)
Fixpoint splitSpaces (s : string) : list string :=
  match s with
  | EmptyString => [""]
  | String c s' =>
      if Ascii.eqb c " "
      then
        match s' with
        | String c' _ => if Ascii.eqb c' " " then splitSpaces s' else "" :: splitSpaces s'
        | EmptyString => "" :: splitSpaces s'
        end
      else
        match splitSpaces s' with
        | w :: rest => String c w :: rest
        | [] => [String c ""]
        end
  end.

(** A word without a space. *)
Definition noSpace (w : string) : Prop := ~ In " "%char (list_ascii_of_string w).

(** The last character of a string is not a space. *)
Fixpoint endsWithoutSpace (s : string) : bool :=
  match s with
  | EmptyString => false
  | String c EmptyString => negb (Ascii.eqb c " ")
  | String _ s' => endsWithoutSpace s'
  end.

(** What the handler reads of a message. *)
Record Incoming : Type := {
  authorBot : bool;
  authorId : string;
  channelId : string;
  content : string
}.

Section Filter.

(** [String.prototype.toLowerCase] *)
Variable toLowerCase : string -> string.

Variable config : Config.

(** [streamer.client.user?.id] *)
Variable selfId : option string.

(** The filter of the handler (lines 235-240). *)
Definition ignored (m : Incoming) : bool :=
  authorBot m
  || match selfId with
     | Some id => String.eqb (authorId m) id
     | None => false
     end
  || negb (Js.includes (cmdChannelId config) (channelId m))
  || negb (String.prefix (prefix config) (content m)).

(** [message.content.slice(config.prefix.length).trim().split(/ +/)] *)
Definition commandWords (m : Incoming) : list string :=
  splitSpaces (Js.trim (Js.drop (String.length (prefix config)) (content m))).

(** The command word and the arguments of a message that passes the
    filter (lines 235-246). *)
Definition parseCommand (m : Incoming) : option (string * list string) :=
  if ignored m then None
  else
    match commandWords m with
    | [] => None
    | user_cmd :: args => Some (toLowerCase user_cmd, args)
    end.

End Filter.

(** The name under which [jfplay] announces an item (line 568). *)
Definition announced (item : option JellyfinItem) (itemId : string) : string :=
  match item with
  | Some item => getDisplayName item
  | None => "Jellyfin Item " ++ itemId
  end.

(* ================================================================= *)
(** ** More examples *)

Definition catalog : list Video := [{| name := "intro"; path := "videos/intro.mp4" |}].

Definition jellyfinConfig : Config :=
  {| prefix := "$"; guildId := "guild"; cmdChannelId := "commands";
     videoChannelId := "voice"; respect_video_params := false;
     width := Js.Int 1280; height := Js.Int 720; fps := Js.Int 30;
     bitrateKbps := Js.Int 1000; maxBitrateKbps := Js.Int 2500;
     jellyfin_enabled := true |}.

Definition movie : JellyfinItem :=
  {| itemName := "Heat"; itemType := "Movie"; seriesName := None;
     parentIndexNumber := Js.NaN; indexNumber := Js.NaN;
     productionYear := Js.Int 1995 |}.

(** The Jellyfin bot knows the item and serves it over HTTP. *)
Definition jellyfinFinds : Oracle :=
  fun q =>
    match q as q' return Settled (resp q') with
    | GetStreamInfo _ =>
        Resolved (Some {| streamUrl := "jellyfin://stream/42"; isLocal := false |})
    | GetItem _ => Resolved (Some movie)
    | q' => fulfilled q'
    end.

(** A message of a user in the command channel. *)
Definition userMessage (text : string) : Incoming :=
  {| authorBot := false; authorId := "user"; channelId := "commands"; content := text |}.
Unset Implicit Arguments.

(* ================================================================= *)
(** ** Properties of [trim] *)

Lemma drop_nil (k : nat) : Js.drop k "" = "".
Proof. destruct k; reflexivity. Qed.

Lemma trimStartFrom_drop (k : nat) (s : string) :
  Js.trimStartFrom k s = Js.trimStart (Js.drop k s).
Proof.
  revert k. induction s as [|c s IH]; intros k.
  - now rewrite drop_nil.
  - destruct k as [|k]; [reflexivity | exact (IH k)].
Qed.

(** The equation of [trimStart]. *)
Lemma trimStart_eq (s : string) :
  Js.trimStart s
  = match Js.whiteLen s with
    | O => s
    | S k => Js.trimStart (Js.drop (S k) s)
    end.
Proof.
  destruct s as [|c s]; [reflexivity |].
  unfold Js.trimStart at 1. cbn [Js.trimStartFrom].
  destruct (Js.whiteLen (String c s)) as [|k]; [reflexivity |].
  exact (trimStartFrom_drop k s).
Qed.

Lemma whiteLen_le (s : string) : Js.whiteLen s <= String.length s.
Proof.
  destruct s as [|c [|d [|e s]]]; unfold Js.whiteLen; cbn [String.length];
    repeat match goal with
           | |- context [if ?b then _ else _] => destruct b
           end; lia.
Qed.

Lemma length_drop (k : nat) (s : string) :
  String.length (Js.drop k s) = String.length s - k.
Proof.
  revert s. induction k as [|k IH]; intros [|c s]; simpl; auto with arith.
Qed.

(** A white-space character at the head of [a] is one at the head of
    [a ++ b]. *)
Lemma whiteLen_app (a b : string) :
  Js.whiteLen a <> 0 -> Js.whiteLen (a ++ b) = Js.whiteLen a.
Proof.
  destruct a as [|c [|d [|e a]]]; unfold Js.whiteLen; cbn [append];
    repeat match goal with
           | |- context [if ?b then _ else _] => destruct b
           end; try reflexivity; try (intros H; now contradiction H);
    destruct b as [|x [|y b]];
    repeat match goal with
           | |- context [if ?b then _ else _] => destruct b
           end; try reflexivity; intros H; now contradiction H.
Qed.

Lemma drop_app (k : nat) (a b : string) :
  k <= String.length a -> Js.drop k (a ++ b) = Js.drop k a ++ b.
Proof.
  revert a. induction k as [|k IH]; intros a H.
  - reflexivity.
  - destruct a as [|c a]; simpl in *; [lia |]. apply IH. lia.
Qed.

Lemma trimStart_fixed (t : string) : Js.whiteLen t = 0 -> Js.trimStart t = t.
Proof.
  intros H. rewrite trimStart_eq. now rewrite H.
Qed.

(** What [trimStart] returns does not begin with white space. *)
Lemma whiteLen_trimStart (s : string) : Js.whiteLen (Js.trimStart s) = 0.
Proof.
  remember (String.length s) as n eqn:Hn.
  assert (Hle : String.length s <= n) by lia. clear Hn.
  revert s Hle. induction n as [|n IH]; intros s Hle.
  - destruct s; [reflexivity | simpl in Hle; lia].
  - rewrite trimStart_eq. destruct (Js.whiteLen s) as [|k] eqn:E; [exact E |].
    apply IH. rewrite length_drop. lia.
Qed.

Lemma trimStart_idempotent (s : string) :
  Js.trimStart (Js.trimStart s) = Js.trimStart s.
Proof. apply trimStart_fixed, whiteLen_trimStart. Qed.

Lemma blank_true (s : string) : Js.blank s = true <-> Js.trimStart s = "".
Proof.
  unfold Js.blank. destruct (Js.trimStart s); split; congruence.
Qed.

Lemma blank_app (a b : string) :
  Js.blank a = true -> Js.blank b = true -> Js.blank (a ++ b) = true.
Proof.
  rewrite !blank_true. intros Ha Hb.
  remember (String.length a) as n eqn:Hn.
  assert (Hle : String.length a <= n) by lia. clear Hn.
  revert a Ha Hle. induction n as [|n IH]; intros a Ha Hle.
  - destruct a; [exact Hb | simpl in Hle; lia].
  - destruct a as [|c a]; [exact Hb |].
    rewrite trimStart_eq in Ha.
    destruct (Js.whiteLen (String c a)) as [|k] eqn:E; [discriminate Ha |].
    rewrite trimStart_eq, whiteLen_app, E by (rewrite E; discriminate).
    pose proof (whiteLen_le (String c a)) as Hk. rewrite E in Hk.
    rewrite drop_app by exact Hk.
    apply IH; [exact Ha |]. rewrite length_drop. simpl in *. lia.
Qed.

(** [trimEnd] cuts [s] in what it keeps and a blank rest. *)
Lemma trimEnd_split (s : string) :
  exists rest, s = Js.trimEnd s ++ rest /\ Js.blank rest = true.
Proof.
  induction s as [|c s [rest [IH Hr]]].
  - now exists "".
  - cbn [Js.trimEnd]. destruct (Js.blank (String c s)) eqn:B.
    + now exists (String c s).
    + exists rest. split; [simpl; now rewrite <- IH | exact Hr].
Qed.

Lemma trimEnd_idempotent (s : string) : Js.trimEnd (Js.trimEnd s) = Js.trimEnd s.
Proof.
  induction s as [|c s IH]; [reflexivity |].
  cbn [Js.trimEnd]. destruct (Js.blank (String c s)) eqn:B; [reflexivity |].
  cbn [Js.trimEnd]. destruct (Js.blank (String c (Js.trimEnd s))) eqn:B'.
  - destruct (trimEnd_split s) as [rest [Hs Hr]].
    pose proof (blank_app _ _ B' Hr) as H. simpl in H. rewrite <- Hs in H. congruence.
  - now rewrite IH.
Qed.

Lemma whiteLen_trimEnd (t : string) : Js.whiteLen t = 0 -> Js.whiteLen (Js.trimEnd t) = 0.
Proof.
  intros H. destruct (Js.whiteLen (Js.trimEnd t)) as [|k] eqn:E; [reflexivity |].
  destruct (trimEnd_split t) as [rest [Ht _]].
  rewrite Ht, whiteLen_app, E in H by (rewrite E; discriminate). discriminate H.
Qed.

Lemma trim_idempotent (s : string) : Js.trim (Js.trim s) = Js.trim s.
Proof.
  unfold Js.trim.
  rewrite (trimStart_fixed (Js.trimEnd (Js.trimStart s)))
    by apply whiteLen_trimEnd, whiteLen_trimStart.
  apply trimEnd_idempotent.
Qed.

(** A string that begins with a space begins with white space. *)
Lemma whiteLen_space (s : string) : Js.whiteLen (String " " s) = 1.
Proof. reflexivity. Qed.

Lemma blank_space (s : string) : Js.blank s = true -> Js.blank (String " " s) = true.
Proof.
  rewrite !blank_true. intros H. rewrite trimStart_eq, whiteLen_space. exact H.
Qed.

Lemma trimEnd_ends (s : string) :
  Js.trimEnd s = "" \/ endsWithoutSpace (Js.trimEnd s) = true.
Proof.
  induction s as [|c s IH]; [now left |].
  cbn [Js.trimEnd]. destruct (Js.blank (String c s)) eqn:B; [now left |]. right.
  destruct (Js.trimEnd s) as [|d t] eqn:E.
  - simpl. destruct (Ascii.eqb c " ") eqn:Ec; [| reflexivity].
    apply Ascii.eqb_eq in Ec. subst c.
    destruct (trimEnd_split s) as [rest [Hs Hr]]. rewrite E in Hs. simpl in Hs. subst rest.
    rewrite (blank_space s Hr) in B. discriminate B.
  - destruct IH as [IH | IH]; [discriminate IH | exact IH].
Qed.

(** A trimmed string is empty, or it neither begins nor ends with a
    space. *)
Lemma trim_shape (s : string) :
  Js.trim s = ""
  \/ exists c t, Js.trim s = String c t /\ Ascii.eqb c " " = false
                 /\ endsWithoutSpace (String c t) = true.
Proof.
  destruct (Js.trim s) as [|c t] eqn:E; [now left |]. right.
  exists c, t. split; [reflexivity |]. split.
  - destruct (Ascii.eqb c " ") eqn:Ec; [| reflexivity].
    apply Ascii.eqb_eq in Ec. subst c.
    pose proof (whiteLen_trimEnd _ (whiteLen_trimStart s)) as H.
    fold (Js.trim s) in H. rewrite E in H. discriminate H.
  - destruct (trimEnd_ends (Js.trimStart s)) as [H | H]; fold (Js.trim s) in H;
      rewrite E in H; [discriminate H | exact H].
Qed.

Lemma arrayIncludes_In (l : list string) (v : string) :
  Js.arrayIncludes l v = true <-> In v l.
Proof.
  unfold Js.arrayIncludes. rewrite existsb_exists. split.
  - intros [x [Hx E]]. apply String.eqb_eq in E. now subst.
  - intros H. exists v. split; [exact H | apply String.eqb_refl].
Qed.

(* ================================================================= *)
(** ** parseVideoCodec *)

(** C8: [parseVideoCodec] is a total function of its input that looks at
    the trimmed, upper-cased input only: when that is one of VP8, H264,
    H265, VP9, AV1 it is the result, and the result is "H264" for every
    other input.  Hence the result is always a valid codec, it does not
    change when the input is trimmed beforehand, and two inputs with the
    same trimmed, upper-cased form (inputs that differ in case and in
    the white space around them) have the same result.  This holds
    whatever [toUpperCase] does. *)
Theorem parseVideoCodec_spec (toUpperCase : string -> string) (value : string) :
  let v := toUpperCase (Js.trim value) in
  ((v = "VP8" \/ v = "H264" \/ v = "H265" \/ v = "VP9" \/ v = "AV1") ->
     parseVideoCodec toUpperCase value = v)
  /\ (~ (v = "VP8" \/ v = "H264" \/ v = "H265" \/ v = "VP9" \/ v = "AV1") ->
     parseVideoCodec toUpperCase value = "H264")
  /\ In (parseVideoCodec toUpperCase value) VALID_VIDEO_CODECS
  /\ parseVideoCodec toUpperCase (Js.trim value) = parseVideoCodec toUpperCase value
  /\ (forall other,
        toUpperCase (Js.trim other) = v ->
        parseVideoCodec toUpperCase other = parseVideoCodec toUpperCase value).
Proof.
  intros v.
  assert (Hin : In v VALID_VIDEO_CODECS <->
                (v = "VP8" \/ v = "H264" \/ v = "H265" \/ v = "VP9" \/ v = "AV1")).
  { unfold VALID_VIDEO_CODECS. simpl. intuition congruence. }
  assert (Hdep : forall other,
             toUpperCase (Js.trim other) = v ->
             parseVideoCodec toUpperCase other = parseVideoCodec toUpperCase value).
  { intros other E. unfold parseVideoCodec. fold v. now rewrite E. }
  split; [| split; [| split; [| split]]].
  - intros H. apply Hin, arrayIncludes_In in H.
    unfold parseVideoCodec. fold v. now rewrite H.
  - intros H. unfold parseVideoCodec. fold v.
    destruct (Js.arrayIncludes VALID_VIDEO_CODECS v) eqn:E; [| reflexivity].
    apply arrayIncludes_In, Hin in E. contradiction.
  - unfold parseVideoCodec. fold v.
    destruct (Js.arrayIncludes VALID_VIDEO_CODECS v) eqn:E.
    + now apply arrayIncludes_In.
    + simpl. auto.
  - apply Hdep. unfold v. now rewrite trim_idempotent.
  - exact Hdep.
Qed.

(** "h265" in lower case, between no-break spaces (U+00A0) and between
    ASCII spaces, and a codec that is not supported. *)
Lemma parseVideoCodec_spec_witness :
  parseVideoCodec asciiUpperCase (nbsp ++ "h265" ++ nbsp) = "H265"
  /\ parseVideoCodec asciiUpperCase "  h265 " = parseVideoCodec asciiUpperCase "H265"
  /\ parseVideoCodec asciiUpperCase "mpeg2" = "H264".
Proof.
  split; [| split].
  - destruct (parseVideoCodec_spec asciiUpperCase (nbsp ++ "h265" ++ nbsp)) as [H _].
    apply H. right. right. left. reflexivity.
  - destruct (parseVideoCodec_spec asciiUpperCase "H265") as [_ [_ [_ [_ H]]]].
    apply H. reflexivity.
  - destruct (parseVideoCodec_spec asciiUpperCase "mpeg2") as [_ [H _]].
    apply H. intros [E|[E|[E|[E|E]]]]; discriminate E.
Defined.

(* ================================================================= *)
(** ** getTwitchStreamUrl *)

Section Twitch.

Variable config : Config.

Lemma selectRendition_match (streams : list TwitchStream) :
  (exists r, In r streams /\ resolution r = targetResolution config) ->
  exists before selected after,
    streams = (before ++ selected :: after)%list
    /\ resolution selected = targetResolution config
    /\ Forall (fun r => resolution r <> targetResolution config) before
    /\ selectRendition config streams = Some selected.
Proof.
  unfold selectRendition.
  induction streams as [|x rest IH]; intros [r [Hin Hr]].
  - destruct Hin.
  - simpl. destruct (String.eqb (resolution x) (targetResolution config)) eqn:E.
    + apply String.eqb_eq in E.
      exists [], x, rest. repeat split; auto.
    + apply String.eqb_neq in E.
      destruct Hin as [Hx | Hin]; [subst x; contradiction |].
      destruct IH as [before [selected [after [Hs [Ht [Hb Hsel]]]]]].
      { exists r. split; assumption. }
      exists (x :: before), selected, after.
      repeat split.
      * simpl. now rewrite Hs.
      * exact Ht.
      * constructor; assumption.
      * destruct (find (fun stream => String.eqb (resolution stream) (targetResolution config)) rest) eqn:F.
        -- exact Hsel.
        -- (* no match in [rest] contradicts [Hin] *)
           exfalso. apply (find_none _ _ F) in Hin.
           rewrite Hr, String.eqb_refl in Hin. discriminate Hin.
Qed.

Lemma selectRendition_fallback (streams : list TwitchStream) :
  (forall r, In r streams -> resolution r <> targetResolution config) ->
  selectRendition config streams = hd_error streams.
Proof.
  unfold selectRendition. intros H.
  destruct (find (fun stream => String.eqb (resolution stream) (targetResolution config)) streams) eqn:F.
  - apply find_some in F. destruct F as [Hin E].
    apply String.eqb_eq in E. now apply H in Hin.
  - reflexivity.
Qed.

Lemma selectRendition_nonempty (streams : list TwitchStream) :
  streams <> [] -> selectRendition config streams <> None.
Proof.
  unfold selectRendition. intros H.
  destruct (find _ streams); [discriminate |].
  destruct streams; [contradiction | discriminate].
Qed.

Lemma getTwitchStreamUrl_runAlone (o : Oracle) (link : string) (w : World) :
  exists w',
    runAlone o (getTwitchStreamUrl config link) w
    = Some (w', Returned
                  match playlistLookup o link with
                  | Resolved streams => renditionUrl (selectRendition config streams)
                  | Rejected _ => None
                  end).
Proof.
  unfold getTwitchStreamUrl, playlistLookup.
  destruct (Js.includes link "/videos/"); simpl.
  - destruct (o (GetVod (Js.splitPop link "/videos/"))); simpl; eexists; reflexivity.
  - destruct (o (GetStream (Js.splitPop link "/"))); simpl; eexists; reflexivity.
Qed.

(** C5: for a Twitch link, live or VOD, whose playlist lookup returns a
    non-empty list of renditions, [getTwitchStreamUrl] selects the first
    rendition whose resolution string equals the configured width and
    height, written [`${config.width}x${config.height}`], when there is
    one, and the first rendition of the list otherwise; it returns the
    URL of the selected rendition (or [null] when that URL is empty): a
    missing match alone is no failure. *)
Theorem getTwitchStreamUrl_selection (o : Oracle) (link : string) (w : World)
    (streams : list TwitchStream) :
  let target := Js.numToString (width config) ++ "x" ++ Js.numToString (height config) in
  streams <> [] ->
  playlistLookup o link = Resolved streams ->
  exists selected w',
    selectRendition config streams = Some selected
    /\ In selected streams
    /\ ((exists r, In r streams /\ resolution r = target) ->
        exists before after,
          streams = (before ++ selected :: after)%list
          /\ resolution selected = target
          /\ Forall (fun r => resolution r <> target) before)
    /\ ((forall r, In r streams -> resolution r <> target) ->
        hd_error streams = Some selected)
    /\ runAlone o (getTwitchStreamUrl config link) w
       = Some (w', Returned (if Js.truthy (url selected) then Some (url selected) else None)).
Proof.
  intros target Hne Hlookup.
  change target with (targetResolution config).
  destruct (selectRendition config streams) as [selected|] eqn:Hsel.
  2: { now apply selectRendition_nonempty in Hne. }
  destruct (getTwitchStreamUrl_runAlone o link w) as [w' Hrun].
  rewrite Hlookup, Hsel in Hrun. simpl in Hrun.
  exists selected, w'. split; [reflexivity |]. split; [| split; [| split]].
  - unfold selectRendition in Hsel.
    destruct (find _ streams) as [r|] eqn:F.
    + injection Hsel as <-. now apply find_some in F.
    + destruct streams as [|x rest]; [discriminate Hsel |].
      injection Hsel as <-. now left.
  - intros Hex.
    destruct (selectRendition_match streams Hex)
      as [before [sel [after [Hs [Ht [Hb Hsel']]]]]].
    rewrite Hsel in Hsel'. injection Hsel' as <-.
    exists before, after. repeat split; assumption.
  - intros Hnone. rewrite <- Hsel. symmetry. now apply selectRendition_fallback.
  - exact Hrun.
Qed.

(** C10: [getTwitchStreamUrl] never throws: whatever the link and the
    collaborators, it returns, and it returns [null] when the playlist
    lookup fails, when no rendition is selected (the list is empty) and
    when the selected rendition has no URL; otherwise it returns the URL
    of the selected rendition. *)
Theorem getTwitchStreamUrl_never_throws (o : Oracle) (link : string) (w : World) :
  exists w' result,
    runAlone o (getTwitchStreamUrl config link) w = Some (w', Returned result)
    /\ (forall e, playlistLookup o link = Rejected e -> result = None)
    /\ (forall streams,
          playlistLookup o link = Resolved streams ->
          selectRendition config streams = None -> result = None)
    /\ (forall streams selected,
          playlistLookup o link = Resolved streams ->
          selectRendition config streams = Some selected ->
          url selected = "" -> result = None)
    /\ (forall streams selected,
          playlistLookup o link = Resolved streams ->
          selectRendition config streams = Some selected ->
          url selected <> "" -> result = Some (url selected)).
Proof.
  destruct (getTwitchStreamUrl_runAlone o link w) as [w' Hrun].
  eexists w', _. split; [exact Hrun |].
  repeat split.
  - intros e H. now rewrite H.
  - intros streams H Hsel. now rewrite H, Hsel.
  - intros streams selected H Hsel Hurl. rewrite H, Hsel. simpl. now rewrite Hurl.
  - intros streams selected H Hsel Hurl. rewrite H, Hsel. simpl.
    destruct (url selected); [contradiction | reflexivity].
Qed.

End Twitch.

(** With the configured 1280x720: of [1920x1080; 1280x720; 640x360] the
    second rendition is selected, the one that matches; of
    [852x480; 640x360], where none matches, the first. *)
Lemma getTwitchStreamUrl_selection_witness :
  (exists w',
      runAlone (playlistOf sourceFirst) (getTwitchStreamUrl exampleConfig twitchLink) bootWorld
      = Some (w', Returned (Some "https://video.example/720p60.m3u8")))
  /\ (exists w',
      runAlone (playlistOf withoutTarget) (getTwitchStreamUrl exampleConfig twitchLink) bootWorld
      = Some (w', Returned (Some "https://video.example/480p30.m3u8"))).
Proof.
  split.
  - destruct (getTwitchStreamUrl_selection exampleConfig (playlistOf sourceFirst)
                twitchLink bootWorld sourceFirst ltac:(discriminate) eq_refl)
      as [selected [w' [_ [Hin [Hmatch [_ Hrun]]]]]].
    destruct Hmatch as [before [after [_ [Hres _]]]].
    { eexists. split; [right; left; reflexivity | reflexivity]. }
    assert (E : selected = {| quality := "720p60"; resolution := "1280x720";
                              url := "https://video.example/720p60.m3u8" |}).
    { destruct Hin as [<- | [<- | [<- | []]]]; vm_compute in Hres;
        first [discriminate Hres | reflexivity]. }
    exists w'. rewrite E in Hrun. exact Hrun.
  - destruct (getTwitchStreamUrl_selection exampleConfig (playlistOf withoutTarget)
                twitchLink bootWorld withoutTarget ltac:(discriminate) eq_refl)
      as [selected [w' [_ [_ [_ [Hfirst Hrun]]]]]].
    assert (E : Some {| quality := "480p30"; resolution := "852x480";
                        url := "https://video.example/480p30.m3u8" |} = Some selected).
    { apply Hfirst. intros r [<- | [<- | []]]; discriminate. }
    injection E as <-. exists w'. exact Hrun.
Defined.

(* ================================================================= *)
(** ** The event loop *)

Lemma takeNth_last {A : Type} (l : list A) (x : A) :
  takeNth (List.length l) (l ++ [x]) = Some (x, l).
Proof.
  induction l as [|y l IH]; simpl.
  - reflexivity.
  - now rewrite IH.
Qed.

Lemma step_settle_last (config : Config) (w : World) (ps : list Pending) (q : Query)
    (k : Settled (resp q) -> Prog World unit) (o : Oracle) :
  step config {| world := w; pending := ps ++ [{| awaited := q; resume := k |}] |}
       (Settle (List.length ps) o)
  = exec (k (o q)) {| world := w; pending := ps |}.
Proof.
  unfold step. cbn [pending world]. now rewrite takeNth_last.
Qed.

Lemma run_cons (config : Config) (s : Sys) (ev : Event) (evs : list Event) :
  run config s (ev :: evs) = run config (step config s ev) evs.
Proof. reflexivity. Qed.

Lemma run_nil (config : Config) (s : Sys) : run config s [] = s.
Proof. reflexivity. Qed.

Arguments step : simpl never.
Arguments run : simpl never.

(* ================================================================= *)
(** ** Symbolic execution *)

(** Simplify the goal.  The step is recorded through the normal form
    of the goal, which makes its two halves cheap to check: the goal
    before and the goal after are each compared with that normal form,
    never with each other. *)
Ltac vsimpl :=
  match goal with
  | |- ?G =>
      let N := eval lazy -[app nth setFlag List.length String.append Js.truthy step run] in G in
      let G' := eval simpl in G in
      let H1 := fresh in
      let H2 := fresh in
      assert (H1 : G'); [ | assert (H2 : N) by exact_no_check H1; exact_no_check H2 ]
  end.

Lemma length_setFlag (c : nat) (flags : list bool) :
  List.length (setFlag c flags) = List.length flags.
Proof.
  revert c. induction flags as [|b flags IH]; intros [|c]; simpl; auto.
Qed.

Lemma nth_setFlag (c : nat) (flags : list bool) :
  c < List.length flags -> nth c (setFlag c flags) false = true.
Proof.
  revert c. induction flags as [|b flags IH]; intros [|c] H; simpl in *;
    try reflexivity; try lia.
  apply IH. lia.
Qed.

Lemma nth_fresh (flags : list bool) (b : bool) :
  nth (List.length flags) (flags ++ [b]) false = b.
Proof.
  rewrite app_nth2 by lia. now rewrite Nat.sub_diag.
Qed.

Lemma setFlag_fresh (flags : list bool) (b : bool) :
  setFlag (List.length flags) (flags ++ [b]) = (flags ++ [true])%list.
Proof.
  induction flags as [|x flags IH]; simpl.
  - reflexivity.
  - now rewrite IH.
Qed.

Lemma nth_fresh_setFlag (c : nat) (flags : list bool) (b : bool) :
  nth (List.length flags) (setFlag c flags ++ [b]) false = b.
Proof.
  rewrite <- (length_setFlag c flags). apply nth_fresh.
Qed.

Lemma setFlag_fresh_setFlag (c : nat) (flags : list bool) (b : bool) :
  setFlag (List.length flags) (setFlag c flags ++ [b]) = (setFlag c flags ++ [true])%list.
Proof.
  rewrite <- (length_setFlag c flags). apply setFlag_fresh.
Qed.

Lemma setFlag_idempotent (c : nat) (flags : list bool) :
  setFlag c (setFlag c flags) = setFlag c flags.
Proof.
  revert c. induction flags as [|b flags IH]; intros [|c]; simpl; auto.
  now rewrite IH.
Qed.

Create Rewrite HintDb flags.
#[local] Hint Rewrite length_setFlag nth_fresh setFlag_fresh nth_fresh_setFlag
  setFlag_fresh_setFlag setFlag_idempotent : flags.

(** Bring a trace to the form [old ++ suffix]. *)
Ltac suffix := repeat rewrite <- app_assoc; simpl app.

(* ================================================================= *)
(** ** The [stop] command *)

Section Stop.

Variable config : Config.

Lemma stop_not_joined_run (s : Sys) (message : Message) (args : list string)
    (o : Oracle) (reply : Message) :
  joined (streamStatus (world s)) = false ->
  o (React message "❌") = Resolved tt ->
  o (Reply message alreadyStopped) = Resolved reply ->
  step config s (MessageCreate message stop args)
  = {| world := logged (Call (React message "❌")) (world s);
       pending := (pending s ++
         [{| awaited := React message "❌";
             resume := fun r =>
               (match r with
                | Resolved a => Ret a
                | Rejected e => Throw e
                end ;;
                call (Reply message alreadyStopped) ;; Ret tt) |}])%list |}
  /\ run config s [MessageCreate message stop args;
                   Settle (List.length (pending s)) o; Settle (List.length (pending s)) o]
     = {| world := logged (Call (Reply message alreadyStopped))
                     (logged (Call (React message "❌")) (world s));
          pending := pending s |}.
Proof.
  intros Hj Hreact Hreply.
  assert (E1 : step config s (MessageCreate message stop args)
               = {| world := logged (Call (React message "❌")) (world s);
                    pending := (pending s ++
                      [{| awaited := React message "❌";
                          resume := fun r =>
                            (match r with
                             | Resolved a => Ret a
                             | Rejected e => Throw e
                             end ;;
                             call (Reply message alreadyStopped) ;; Ret tt) |}])%list |}).
  { unfold step, messageCreate, onStop. vsimpl. rewrite Hj. reflexivity. }
  split; [exact E1 |].
  rewrite run_cons, E1, run_cons, step_settle_last, Hreact. vsimpl.
  rewrite run_cons, step_settle_last. vsimpl. rewrite Hreply. reflexivity.
Qed.

(** C9: a [stop] command that arrives while [streamStatus.joined] is
    false is answered by the error "Already Stopped!" (a reaction, then
    the reply) and changes nothing: the stream status, the controller and
    its signal are as before, and the only effects are the two calls of
    the notification, so that the voice connection and the transcoding
    process are not touched. *)
Theorem stop_when_not_joined (s : Sys) (message : Message) (args : list string)
    (o : Oracle) (reply : Message) :
  joined (streamStatus (world s)) = false ->
  o (React message "❌") = Resolved tt ->
  o (Reply message alreadyStopped) = Resolved reply ->
  let n := List.length (pending s) in
  let s1 := step config s (MessageCreate message stop args) in
  let s3 := run config s [MessageCreate message stop args; Settle n o; Settle n o] in
  world s1 = logged (Call (React message "❌")) (world s)
  /\ world s3 = logged (Call (Reply message alreadyStopped)) (world s1)
  /\ pending s3 = pending s
  /\ streamStatus (world s3) = streamStatus (world s)
  /\ streamOpts (world s3) = streamOpts (world s)
  /\ controller (world s3) = controller (world s)
  /\ aborted (world s3) = aborted (world s)
  /\ trace (world s3)
     = (trace (world s) ++ [Call (React message "❌"); Call (Reply message alreadyStopped)])%list.
Proof.
  intros Hj Hreact Hreply n s1 s3.
  destruct (stop_not_joined_run s message args o reply Hj Hreact Hreply) as [E1 E3].
  unfold s3, s1, n. rewrite E3, E1. simpl. repeat split.
  now rewrite <- app_assoc.
Qed.

Lemma stop_joined_run (s : Sys) (message : Message) (args : list string) (o : Oracle) :
  joined (streamStatus (world s)) = true ->
  o (React message "✅") = Resolved tt ->
  o (ChannelSend message stoppedText) = Resolved tt ->
  let n := List.length (pending s) in
  let s1 := step config s (MessageCreate message stop args) in
  let s3 := run config s [MessageCreate message stop args; Settle n o; Settle n o] in
  (manualStop (streamStatus (world s1)) = true
   /\ aborted (world s1) = abortedFlags (world s)
   /\ trace (world s1) = (trace (world s) ++ abortEffects (world s)
                                          ++ [Call (React message "✅")])%list)
  /\ pending s3 = pending s
  /\ streamStatus (world s3) = stoppedStatus
  /\ controller (world s3) = controller (world s)
  /\ aborted (world s3) = abortedFlags (world s)
  /\ trace (world s3)
     = (trace (world s) ++ abortEffects (world s)
          ++ [Call (React message "✅"); Call (ChannelSend message stoppedText);
              StopStream; LeaveVoice; SetActivity status_idle])%list.
Proof.
  intros Hj Hreact Hsend n s1 s3.
  destruct s as [w ps]. destruct w as [st opts vids ctl flags cached tr].
  simpl in Hj. unfold stoppedText in Hsend.
  unfold s3, s1, n, run, step, abortedFlags, abortEffects.
  cbn [fold_left pending world]. unfold messageCreate, onStop.
  destruct ctl as [c|]; vsimpl; rewrite Hj; vsimpl;
    rewrite takeNth_last; vsimpl; rewrite Hreact; vsimpl;
    rewrite takeNth_last; vsimpl; rewrite Hsend; vsimpl;
    repeat split; suffix; reflexivity.
Qed.

End Stop.

(** A [stop] command right after the start of the process. *)
Lemma stop_when_not_joined_witness :
  trace (world (run exampleConfig (start bootWorld)
                  [MessageCreate stopMessage stop []; Settle 0 fulfilled; Settle 0 fulfilled]))
  = [Call (React stopMessage "❌"); Call (Reply stopMessage alreadyStopped)].
Proof.
  exact (proj2 (proj2 (proj2 (proj2 (proj2 (proj2 (proj2
           (stop_when_not_joined exampleConfig (start bootWorld) stopMessage []
              fulfilled {| msgId := 11 |} eq_refl eq_refl eq_refl)))))))).
Defined.


(** One turn of the event loop, unfolded. *)
Lemma step_settle_eq (config : Config) (w : World) (ps : list Pending) (i : nat) (o : Oracle) :
  step config {| world := w; pending := ps |} (Settle i o)
  = match takeNth i ps with
    | Some (p, rest) => exec (resume p (o (awaited p))) {| world := w; pending := rest |}
    | None => {| world := w; pending := ps |}
    end.
Proof. reflexivity. Qed.

Lemma step_message_eq (config : Config) (w : World) (ps : list Pending)
    (message : Message) (user_cmd : Command) (args : list string) :
  step config {| world := w; pending := ps |} (MessageCreate message user_cmd args)
  = exec (messageCreate config message user_cmd args) {| world := w; pending := ps |}.
Proof. reflexivity. Qed.


(** Keep the run of a goal [let s := run ... in ...] in one place: the
    goal becomes [forall s, s = run ... -> ...]. *)
Ltac hold :=
  match goal with
  | |- let _ := ?R in _ =>
      let s := fresh "s" in
      let E := fresh "E" in
      intros s; assert (E : s = R) by reflexivity; clearbody s; revert s E
  end.

(* ================================================================= *)
(** ** YouTube live streams *)

(** C6, counterexample: a session has ended and a live YouTube video is
    played; the lookup of its manifest fails.  The attempt ends without
    a download and without a pipeline, but no error is reported: the
    trace holds the two lookups and the teardown only. *)
Lemma live_lookup_failure_is_not_reported :
  exists w',
    runAlone liveLookupFails (playVideo exampleConfig secondMessage youtubeLink (Some "Live"))
      afterFirstSession = Some (w', Returned tt)
    /\ controller afterFirstSession = Some 0
    /\ liveLookupFails (GetLiveStreamUrl youtubeLink)
       = Rejected (Error "Unable to extract the manifest")
    /\ trace w'
       = (trace afterFirstSession
            ++ [Call (GetVideoInfo youtubeLink); Call (GetLiveStreamUrl youtubeLink);
                Abort 0; StopStream; LeaveVoice; SetActivity status_idle])%list
    /\ terminalNotifications (trace w') = terminalNotifications (trace afterFirstSession)
    /\ downloads (trace w') = [].
Proof.
  eexists. split; [vm_compute; reflexivity |].
  repeat split.
Qed.

Section Live.

Variable config : Config.

(** C6, amended: for a YouTube link whose video is live, [playVideo]
    asks the live-URL collaborator and never the downloader.  When the
    collaborator gives a URL, ffmpeg is started on exactly that URL (no
    download, no deletion).  When it answers without a URL, the error is
    reported once, [cleanupStreamStatus] resets the status, there is no
    download, no voice join and no pipeline, and the function returns
    when a controller exists.  When the lookup fails, nothing is
    reported: with a controller present, the controller is aborted, the
    status is reset, there is no download, no voice join and no
    pipeline, and the function returns. *)
Theorem youtube_live (o : Oracle) (message : Message) (videoSource : string)
    (title : option string) (w : World) (info : option VideoInfo) :
  isYoutube videoSource = true ->
  o (GetVideoInfo videoSource) = Resolved info ->
  liveContent info = true ->
  wellFormed w ->
  (forall u,
      o (GetLiveStreamUrl videoSource) = Resolved (Some u) ->
      Js.truthy u = true ->
      o (JoinVoice (guildId config) (videoChannelId config)) = Resolved tt ->
      o (PromiseAll (React message "▶️")
           (Reply message (playingText (Js.orElseOpt title videoSource)))) = Resolved tt ->
      exists w' out suffix,
        runAlone o (playVideo config message videoSource title) w = Some (w', out)
        /\ trace w' = (trace w ++ suffix)%list
        /\ pipelineInputs suffix = [u]
        /\ downloads suffix = []
        /\ unlinks suffix = [])
  /\ (forall noUrl reply,
      o (GetLiveStreamUrl videoSource) = Resolved noUrl ->
      Js.truthyOpt noUrl = false ->
      o (React message "❌") = Resolved tt ->
      o (Reply message (liveUrlError title)) = Resolved reply ->
      exists w' out suffix,
        runAlone o (playVideo config message videoSource title) w = Some (w', out)
        /\ (controller w <> None -> out = Returned tt)
        /\ streamStatus w' = resetStatus
        /\ trace w' = (trace w ++ suffix)%list
        /\ terminalNotifications suffix = [Failed (liveUrlError title)]
        /\ downloads suffix = []
        /\ joins suffix = []
        /\ pipelineInputs suffix = [])
  /\ (forall e c0,
      o (GetLiveStreamUrl videoSource) = Rejected e ->
      controller w = Some c0 ->
      exists w' suffix,
        runAlone o (playVideo config message videoSource title) w = Some (w', Returned tt)
        /\ streamStatus w' = resetStatus
        /\ nth c0 (aborted w') false = true
        /\ trace w' = (trace w ++ suffix)%list
        /\ terminalNotifications suffix = []
        /\ downloads suffix = []
        /\ joins suffix = []
        /\ pipelineInputs suffix = []).
Proof.
  intros Hy Hinfo Hlive Hwf. split; [| split].
  - intros u Hurl Hu Hjoin Hplaying.
    destruct w as [st opts vids ctl flags cached tr].
    unfold playingText in Hplaying.
    unfold playVideo, resolveYoutube. vsimpl. rewrite Hy. vsimpl.
    rewrite Hinfo. vsimpl. rewrite Hlive. vsimpl. rewrite Hurl. vsimpl.
    rewrite Hu. vsimpl. rewrite Hjoin. vsimpl.
    unfold Js.orElse. rewrite Hu.
    simpl in Hplaying.
    destruct (Js.truthyOpt title); vsimpl; rewrite Hplaying; vsimpl;
      destruct ctl as [c0|]; vsimpl; autorewrite with flags; vsimpl;
      destruct (o (PlayStream u (List.length flags))); vsimpl;
      autorewrite with flags; vsimpl;
      destruct cached; vsimpl; autorewrite with flags; vsimpl;
      (do 3 eexists; split; [reflexivity |]; vsimpl; suffix;
       split; [reflexivity |]; repeat split).
  - intros noUrl reply Hurl Hno Hreact Hreply.
    destruct w as [st opts vids ctl flags cached tr].
    unfold liveUrlError, errorText in *. simpl in Hreply.
    unfold playVideo, resolveYoutube. vsimpl. rewrite Hy. vsimpl.
    rewrite Hinfo. vsimpl. rewrite Hlive. vsimpl. rewrite Hurl. vsimpl.
    rewrite Hno. vsimpl. rewrite Hreact. vsimpl. rewrite Hreply. vsimpl.
    destruct ctl as [c0|]; vsimpl.
    + unfold wellFormed in Hwf. simpl in Hwf.
      rewrite nth_setFlag by exact Hwf. vsimpl.
      do 3 eexists; split; [reflexivity |]; vsimpl; suffix.
      split; [reflexivity |]. split; [reflexivity |]. split; [reflexivity |]. repeat split.
    + do 3 eexists; split; [reflexivity |]; vsimpl; suffix.
      split; [intros H; now contradiction H |].
      split; [reflexivity |]. split; [reflexivity |]. repeat split.
  - intros e c0 Hurl Hc.
    destruct w as [st opts vids ctl flags cached tr].
    simpl in Hc. subst ctl. unfold wellFormed in Hwf. simpl in Hwf.
    unfold playVideo, resolveYoutube. vsimpl. rewrite Hy. vsimpl.
    rewrite Hinfo. vsimpl. rewrite Hlive. vsimpl. rewrite Hurl. vsimpl.
    destruct (nth c0 flags false) eqn:Hn; vsimpl;
      rewrite ?nth_setFlag by exact Hwf; rewrite ?Hn; vsimpl;
      (do 2 eexists; split; [reflexivity |]; split; [reflexivity |];
       split; [simpl; autorewrite with flags; apply nth_setFlag; exact Hwf |];
       split; [simpl; suffix; reflexivity |]; simpl; tauto).
Qed.

End Live.

(** A live YouTube video played from the start of the process: ffmpeg
    reads the manifest and nothing is downloaded. *)
Lemma youtube_live_witness :
  exists w' out suffix,
    runAlone liveStream (playVideo exampleConfig playMessage youtubeLink (Some "Live")) bootWorld
    = Some (w', out)
    /\ trace w' = (trace bootWorld ++ suffix)%list
    /\ pipelineInputs suffix = [liveManifest]
    /\ downloads suffix = []
    /\ unlinks suffix = [].
Proof.
  exact (proj1 (youtube_live exampleConfig liveStream playMessage youtubeLink (Some "Live")
                  bootWorld (Some liveInfo) eq_refl eq_refl eq_refl I)
           liveManifest eq_refl eq_refl eq_refl eq_refl).
Defined.

(* ================================================================= *)
(** ** Failures before the stream starts *)

Section Failures.

Variable config : Config.

Lemma play_video_not_found (s : Sys) (message : Message) (args : list string)
    (o : Oracle) (reply : Message) :
  joined (streamStatus (world s)) = false ->
  (forall v, hd_error args = Some v ->
             find (fun m => String.eqb (name m) v) (videos (world s)) = None) ->
  o (React message "❌") = Resolved tt ->
  o (Reply message (errorText "Video not found")) = Resolved reply ->
  let n := List.length (pending s) in
  run config s [MessageCreate message play args; Settle n o; Settle n o]
  = {| world := logged (Call (Reply message (errorText "Video not found")))
                  (logged (Call (React message "❌")) (world s));
       pending := pending s |}.
Proof.
  intros Hj Hfind Hreact Hreply n.
  assert (E1 : step config s (MessageCreate message play args)
               = {| world := logged (Call (React message "❌")) (world s);
                    pending := (pending s ++
                      [{| awaited := React message "❌";
                          resume := fun r =>
                            (match r with
                             | Resolved a => Ret a
                             | Rejected e => Throw e
                             end ;;
                             call (Reply message (errorText "Video not found")) ;;
                             Ret tt) |}])%list |}).
  { unfold step, messageCreate, onPlay. vsimpl. rewrite Hj. vsimpl.
    destruct (hd_error args) as [v|] eqn:Hv.
    - rewrite (Hfind v eq_refl). reflexivity.
    - reflexivity. }
  unfold n. rewrite run_cons, E1, run_cons, step_settle_last, Hreact. vsimpl.
  rewrite run_cons, step_settle_last. vsimpl.
  rewrite Hreply. reflexivity.
Qed.

Lemma download_failure (o : Oracle) (message : Message) (videoSource : string)
    (title : option string) (w : World) (info : option VideoInfo) (e : Exn)
    (sent : Message) :
  isYoutube videoSource = true ->
  o (GetVideoInfo videoSource) = Resolved info ->
  liveContent info = false ->
  o (Reply message (downloadingText title)) = Resolved sent ->
  o (DownloadToTempFile videoSource (downloadFormat (soHeight (streamOpts w)))) = Rejected e ->
  wellFormed w ->
  exists w' suffix,
    runAlone o (playVideo config message videoSource title) w
    = Some (w', match controller w with
                | Some _ => Returned tt
                | None => Thrown undefinedController
                end)
    /\ streamStatus w' = resetStatus
    /\ trace w' = (trace w ++ suffix)%list
    /\ terminalNotifications suffix = [Failed (downloadFailedText title)]
    /\ In StopStream suffix
    /\ In LeaveVoice suffix
    /\ joins suffix = []
    /\ pipelineInputs suffix = []
    /\ unlinks suffix = [].
Proof.
  intros Hy Hinfo Hlive Hsent Hdl Hwf.
  destruct w as [st opts vids ctl flags cached tr].
  unfold downloadingText in Hsent. unfold downloadFailedText.
  simpl in Hsent, Hdl.
  unfold playVideo, resolveYoutube. vsimpl. rewrite Hy. vsimpl.
  rewrite Hinfo. vsimpl. rewrite Hlive. vsimpl. rewrite Hsent. vsimpl.
  rewrite Hdl. vsimpl.
  unfold wellFormed in Hwf. simpl in Hwf.
  destruct (o (Edit sent _)); vsimpl; destruct ctl as [c0|]; vsimpl;
    try (rewrite nth_setFlag by exact Hwf; vsimpl);
    (do 2 eexists; split; [reflexivity |]; vsimpl; suffix;
     split; [reflexivity |]; split; [reflexivity |];
     split; [reflexivity |]; simpl; intuition).
Qed.

End Failures.

(* ================================================================= *)
(** ** A [stop] command and the teardown *)

(** C4, counterexample: a [stop] command that arrives while the
    download of a play attempt is in flight does not reach the teardown:
    it is answered "Already Stopped!", nothing is torn down, and the
    download goes on. *)
Lemma stop_during_download_is_rejected :
  let s' := run exampleConfig downloading
              [MessageCreate stopMessage stop []; Settle 1 fulfilled; Settle 1 fulfilled] in
  map awaited (pending downloading)
  = [DownloadToTempFile youtubeLink (downloadFormat (Js.Int 720))]
  /\ ~ teardownBetween downloading s'
  /\ terminalNotifications (trace (world s')) = [Failed alreadyStopped]
  /\ map awaited (pending s') = map awaited (pending downloading).
Proof.
  intros s'. split; [vm_compute; reflexivity |].
  split.
  - intros [suffix [Htr [_ [Hin _]]]].
    vm_compute in Htr.
    repeat match type of Htr with
           | _ :: _ = _ :: _ => first [injection Htr as Htr | injection Htr as _ Htr]
           end.
    subst suffix. simpl in Hin.
    destruct Hin as [H | [H | []]]; discriminate H.
  - split; vm_compute; reflexivity.
Qed.

Section StopTeardown.

Variable config : Config.

(** C4, amended: a [stop] command reaches the teardown exactly when
    [streamStatus.joined] is true on its arrival.  It then marks the stop
    as manual, aborts the controller and, once its "Stopped"
    notification is delivered, stops the stream, leaves the voice channel
    and resets the status.  When [joined] is false on its arrival, the
    command is answered "Already Stopped!", nothing is torn down and
    what is suspended stays suspended. *)
Theorem stop_reaches_teardown_when_joined (s : Sys) (message : Message)
    (args : list string) (o : Oracle) (reply : Message) :
  o (React message "✅") = Resolved tt ->
  o (ChannelSend message stoppedText) = Resolved tt ->
  o (React message "❌") = Resolved tt ->
  o (Reply message alreadyStopped) = Resolved reply ->
  let n := List.length (pending s) in
  let s' := run config s [MessageCreate message stop args; Settle n o; Settle n o] in
  (joined (streamStatus (world s)) = true ->
     teardownBetween s s'
     /\ streamStatus (world s') = stoppedStatus
     /\ aborted (world s') = abortedFlags (world s)
     /\ pending s' = pending s)
  /\ (joined (streamStatus (world s)) = false ->
     ~ teardownBetween s s'
     /\ world s' = logged (Call (Reply message alreadyStopped))
                     (logged (Call (React message "❌")) (world s))
     /\ pending s' = pending s).
Proof.
  intros Hok Hsend Hno Hreply n s'. split; intros Hj.
  - destruct (stop_joined_run config s message args o Hj Hok Hsend)
      as [_ [Hp [Hst [_ [Hab Htr]]]]].
    fold n in Hp, Hst, Hab, Htr. fold s' in Hp, Hst, Hab, Htr.
    repeat split; try assumption.
    exists (abortEffects (world s)
              ++ [Call (React message "✅"); Call (ChannelSend message stoppedText);
                  StopStream; LeaveVoice; SetActivity status_idle])%list.
    repeat split.
    + exact Htr.
    + now rewrite Hst.
    + apply in_or_app. right. simpl. tauto.
    + apply in_or_app. right. simpl. tauto.
  - destruct (stop_not_joined_run config s message args o reply Hj Hno Hreply) as [_ E].
    fold n in E. fold s' in E. rewrite E. simpl.
    repeat split.
    intros [suffix [Htr [_ [Hin _]]]]. simpl in Htr.
    rewrite <- app_assoc in Htr. apply app_inv_head in Htr. subst suffix.
    simpl in Hin. destruct Hin as [H | [H | []]]; discriminate H.
Qed.

End StopTeardown.

(** A stop command while a direct link is streaming. *)
Lemma stop_reaches_teardown_when_joined_witness :
  let s := streaming exampleConfig fulfilled playMessage directLink (Some "URL") bootWorld in
  teardownBetween s
    (run exampleConfig s [MessageCreate stopMessage stop []; Settle 1 fulfilled; Settle 1 fulfilled]).
Proof.
  intros s.
  assert (Hj : joined (streamStatus (world s)) = true) by (vm_compute; reflexivity).
  exact (proj1 (proj1 (stop_reaches_teardown_when_joined exampleConfig s stopMessage []
                         fulfilled {| msgId := 11 |} eq_refl eq_refl eq_refl eq_refl) Hj)).
Defined.

(* ================================================================= *)
(** ** Resolution and download failures *)

(** C7, counterexample: after a [playlink] command whose download
    fails, the stream status differs from the status before the command
    (its channel information is emptied), although no pipeline was
    started. *)
Lemma failed_download_changes_status :
  let s' := run exampleConfig (start bootWorld)
              [MessageCreate playMessage playlink [youtubeLink];
               Settle 0 downloadFails; Settle 0 downloadFails; Settle 0 downloadFails;
               Settle 0 downloadFails; Settle 0 downloadFails] in
  pending s' = []
  /\ pipelineInputs (trace (world s')) = []
  /\ terminalNotifications (trace (world s')) = [Failed (downloadFailedText (Some "Talk"))]
  /\ streamStatus (world s') <> streamStatus bootWorld.
Proof.
  intros s'. repeat split; try (vm_compute; reflexivity).
  intros H.
  assert (E : ciGuildId (channelInfo (streamStatus (world s'))) = "guild")
    by (rewrite H; reflexivity).
  vm_compute in E. discriminate E.
Qed.

Section FailedAttempts.

Variable config : Config.

(** C7, amended: a [play] command whose video name is not in the
    catalog is answered "Video not found" and leaves the stream status,
    the stream options and the controller as they were; nothing else
    happens.  A play attempt whose download fails never joins the voice
    channel and never starts the pipeline, and reports the failure once;
    it is not neutral on the status, since it runs [cleanupStreamStatus]:
    the stream is stopped, the voice channel is left and the status is
    reset, with empty channel information. *)
Theorem failed_resolution_or_download :
  (forall (s : Sys) (message : Message) (args : list string) (o : Oracle) (reply : Message),
      joined (streamStatus (world s)) = false ->
      (forall v, hd_error args = Some v ->
                 find (fun m => String.eqb (name m) v) (videos (world s)) = None) ->
      o (React message "❌") = Resolved tt ->
      o (Reply message (errorText "Video not found")) = Resolved reply ->
      let n := List.length (pending s) in
      let s' := run config s [MessageCreate message play args; Settle n o; Settle n o] in
      streamStatus (world s') = streamStatus (world s)
      /\ streamOpts (world s') = streamOpts (world s)
      /\ controller (world s') = controller (world s)
      /\ aborted (world s') = aborted (world s)
      /\ trace (world s')
         = (trace (world s)
              ++ [Call (React message "❌");
                  Call (Reply message (errorText "Video not found"))])%list
      /\ pending s' = pending s)
  /\ (forall (o : Oracle) (message : Message) (videoSource : string)
             (title : option string) (w : World) (info : option VideoInfo) (e : Exn)
             (sent : Message),
      isYoutube videoSource = true ->
      o (GetVideoInfo videoSource) = Resolved info ->
      liveContent info = false ->
      o (Reply message (downloadingText title)) = Resolved sent ->
      o (DownloadToTempFile videoSource (downloadFormat (soHeight (streamOpts w))))
        = Rejected e ->
      wellFormed w ->
      exists w' suffix,
        runAlone o (playVideo config message videoSource title) w
        = Some (w', match controller w with
                    | Some _ => Returned tt
                    | None => Thrown undefinedController
                    end)
        /\ streamStatus w' = resetStatus
        /\ trace w' = (trace w ++ suffix)%list
        /\ terminalNotifications suffix = [Failed (downloadFailedText title)]
        /\ In StopStream suffix
        /\ In LeaveVoice suffix
        /\ joins suffix = []
        /\ pipelineInputs suffix = []
        /\ unlinks suffix = []).
Proof.
  split.
  - intros s message args o reply Hj Hfind Hreact Hreply n s'.
    unfold s', n.
    rewrite (play_video_not_found config s message args o reply Hj Hfind Hreact Hreply).
    simpl. repeat split. now rewrite <- app_assoc.
  - intros o message videoSource title w info e sent Hy Hinfo Hlive Hsent Hdl Hwf.
    exact (download_failure config o message videoSource title w info e sent
             Hy Hinfo Hlive Hsent Hdl Hwf).
Qed.

End FailedAttempts.

(** The download of a YouTube video fails on the first command of the
    process. *)
Lemma failed_resolution_or_download_witness :
  exists w' suffix,
    runAlone downloadFails (playVideo exampleConfig playMessage youtubeLink (Some "Talk")) bootWorld
    = Some (w', Thrown undefinedController)
    /\ streamStatus w' = resetStatus
    /\ trace w' = (trace bootWorld ++ suffix)%list
    /\ terminalNotifications suffix = [Failed (downloadFailedText (Some "Talk"))]
    /\ In StopStream suffix
    /\ In LeaveVoice suffix
    /\ joins suffix = []
    /\ pipelineInputs suffix = []
    /\ unlinks suffix = [].
Proof.
  exact (proj2 (failed_resolution_or_download exampleConfig)
           downloadFails playMessage youtubeLink (Some "Talk") bootWorld
           (Some vodInfo) (Error "ERROR: unable to download video data")
           {| msgId := 2 |} eq_refl eq_refl eq_refl eq_refl eq_refl I).
Defined.

(* ================================================================= *)
(** ** The temporary file *)

(** C3, failing input: the first play attempt of the process on a
    YouTube video that is not live; the download succeeds and
    [joinVoice] fails.  No controller exists yet, so the [catch] block
    and then the [finally] block throw on [controller.signal], and the
    temporary file is never deleted. *)
Theorem temp_file_survives_failed_first_join :
  exists w',
    runAlone joinFails (playVideo exampleConfig playMessage youtubeLink (Some "Talk")) bootWorld
    = Some (w', Thrown undefinedController)
    /\ controller bootWorld = None
    /\ downloads (trace w') = [youtubeLink]
    /\ joins (trace w') = [("guild", "voice")]
    /\ unlinks (trace w') = [].
Proof.
  eexists. split; [vm_compute; reflexivity |].
  repeat split.
Qed.

(** Split on the fate of the promises that the goal waits for. *)
Ltac fates o :=
  repeat (vsimpl;
          match goal with
          | |- context [match o ?q with Resolved _ => _ | Rejected _ => _ end] =>
              destruct (o q)
          end).

Section TempFile.

Variable config : Config.

(** When a controller exists, the temporary file of a downloaded video
    is deleted exactly once, whether the attempt ends normally or by a
    failure of [joinVoice], of the "Now Playing" notification or of
    [playStream]. *)
Lemma temp_file_deleted_once (o : Oracle) (message : Message) (videoSource : string)
    (title : option string) (w : World) (info : option VideoInfo) (file : string)
    (sent : Message) (c0 : nat) :
  isYoutube videoSource = true ->
  o (GetVideoInfo videoSource) = Resolved info ->
  liveContent info = false ->
  o (Reply message (downloadingText title)) = Resolved sent ->
  o (DownloadToTempFile videoSource (downloadFormat (soHeight (streamOpts w))))
    = Resolved file ->
  Js.truthy file = true ->
  controller w = Some c0 ->
  c0 < List.length (aborted w) ->
  exists w' suffix,
    runAlone o (playVideo config message videoSource title) w = Some (w', Returned tt)
    /\ trace w' = (trace w ++ suffix)%list
    /\ downloads suffix = [videoSource]
    /\ unlinks suffix = [file].
Proof.
  intros Hy Hinfo Hlive Hsent Hdl Hfile Hc Hwf.
  destruct w as [st opts vids ctl flags cached tr].
  simpl in Hc, Hwf, Hdl. subst ctl.
  unfold downloadingText in Hsent. simpl in Hsent.
  unfold playVideo, resolveYoutube. vsimpl. rewrite Hy. vsimpl.
  rewrite Hinfo. vsimpl. rewrite Hlive. vsimpl. rewrite Hsent. vsimpl.
  rewrite Hdl. vsimpl.
  destruct (Js.truthyOpt title) eqn:Ht; destruct cached;
    repeat (vsimpl;
            first [ rewrite Hfile
                  | rewrite Ht
                  | progress (unfold Js.orElse)
                  | progress autorewrite with flags
                  | rewrite nth_setFlag
                      by (autorewrite with flags; rewrite ?length_app; simpl; lia)
                  | match goal with
                    | H : nth _ _ _ = _ |- _ => rewrite H
                    end
                  | match goal with
                    | |- context [match o ?q with Resolved _ => _ | Rejected _ => _ end] =>
                        destruct (o q)
                    | |- context [negb (nth ?c ?l false)] =>
                        destruct (nth c l false) eqn:?
                    end ]);
    vsimpl;
    (do 2 eexists; split; [reflexivity |]; vsimpl; suffix;
     split; [reflexivity |]; split; reflexivity).
Qed.

End TempFile.

(* ================================================================= *)
(** ** How a playback attempt ends *)



Section Terminal.

Variable config : Config.








End Terminal.



(* ================================================================= *)
(** ** Play commands while a session is active *)

Section Guard.

Variable config : Config.

(** [play], [playlink] and, when the Jellyfin client exists, [jfplay]
    are answered "Already joined" while [streamStatus.joined] is true,
    and change nothing. *)
Lemma guarded_play_commands (s : Sys) (message : Message) (user_cmd : Command)
    (args : list string) (o : Oracle) (reply : Message) :
  joined (streamStatus (world s)) = true ->
  user_cmd = play \/ user_cmd = playlink
  \/ (user_cmd = jfplay /\ jellyfin_enabled config = true) ->
  o (React message "❌") = Resolved tt ->
  o (Reply message (errorText "Already joined")) = Resolved reply ->
  run config s [MessageCreate message user_cmd args;
                Settle (List.length (pending s)) o; Settle (List.length (pending s)) o]
  = {| world := logged (Call (Reply message (errorText "Already joined")))
                  (logged (Call (React message "❌")) (world s));
       pending := pending s |}.
Proof.
  intros Hj Hcmd Hreact Hreply.
  assert (E1 : step config s (MessageCreate message user_cmd args)
               = {| world := logged (Call (React message "❌")) (world s);
                    pending := (pending s ++
                      [{| awaited := React message "❌";
                          resume := fun r =>
                            (match r with
                             | Resolved a => Ret a
                             | Rejected e => Throw e
                             end ;;
                             call (Reply message (errorText "Already joined")) ;;
                             Ret tt) |}])%list |}).
  { destruct Hcmd as [-> | [-> | [-> Hjf]]];
      unfold step, messageCreate, onPlay, onPlaylink, onJfplay;
      rewrite ?Hjf; vsimpl; rewrite Hj; reflexivity. }
  rewrite run_cons, E1, run_cons, step_settle_last, Hreact. vsimpl.
  rewrite run_cons, step_settle_last. vsimpl. rewrite Hreply. reflexivity.
Qed.

End Guard.

(** C1, failing input: a session is active ([joined] is true, a direct
    link is streaming) when [ytplay cats] arrives.  The command is not
    answered "Already joined": [playVideo] runs, downloads the video
    found, aborts the controller of the active session and starts a
    second pipeline. *)
Theorem ytplay_while_joined_is_not_rejected :
  let s' := run exampleConfig activeSession
              (MessageCreate secondMessage ytplay ["cats"]
               :: repeat (Settle 1 searchFinds) 8) in
  joined (streamStatus (world activeSession)) = true
  /\ map awaited (pending activeSession) = [PlayStream directLink 0]
  /\ terminalNotifications (trace (world s')) = []
  /\ aborted (world activeSession) = [false]
  /\ aborted (world s') = [true; false]
  /\ controller (world s') = Some 1
  /\ pipelineInputs (trace (world s')) = [directLink; "/tmp/yt-dlp-1.mp4"]
  /\ map awaited (pending s')
     = [PlayStream directLink 0; PlayStream "/tmp/yt-dlp-1.mp4" 1].
Proof.
  intros s'. repeat split; vm_compute; reflexivity.
Qed.


(* ================================================================= *)
(** ** Further properties: the parsers of config.ts *)

(** X1: [parsePreset] returns one of the nine presets whatever its
    input: the trimmed, lower-cased input when that is a preset and
    "ultrafast" otherwise.  The result does not change when the input is
    trimmed beforehand, and two inputs with the same trimmed, lower-cased
    form have the same result.  This holds whatever [toLowerCase]
    does. *)
Theorem parsePreset_spec (toLowerCase : string -> string) (value : string) :
  let v := toLowerCase (Js.trim value) in
  In (parsePreset toLowerCase value) presets
  /\ (In v presets -> parsePreset toLowerCase value = v)
  /\ (~ In v presets -> parsePreset toLowerCase value = "ultrafast")
  /\ parsePreset toLowerCase (Js.trim value) = parsePreset toLowerCase value
  /\ (forall other,
        toLowerCase (Js.trim other) = v ->
        parsePreset toLowerCase other = parsePreset toLowerCase value).
Proof.
  intros v.
  assert (Hmem : forall x,
             (String.eqb x "ultrafast" || String.eqb x "superfast"
              || String.eqb x "veryfast" || String.eqb x "faster"
              || String.eqb x "fast" || String.eqb x "medium"
              || String.eqb x "slow" || String.eqb x "slower"
              || String.eqb x "veryslow") = true <-> In x presets).
  { intros x. unfold presets. simpl.
    rewrite !orb_true_iff, !String.eqb_eq. intuition congruence. }
  assert (Hdep : forall other,
             toLowerCase (Js.trim other) = v ->
             parsePreset toLowerCase other = parsePreset toLowerCase value).
  { intros other E. unfold parsePreset. fold v. now rewrite E. }
  split; [| split; [| split; [| split]]].
  - unfold parsePreset. fold v.
    destruct (_ || _) eqn:E.
    + now apply Hmem.
    + simpl. auto.
  - intros H. unfold parsePreset. fold v. apply Hmem in H. now rewrite H.
  - intros H. unfold parsePreset. fold v.
    destruct (_ || _) eqn:E; [apply Hmem in E; contradiction | reflexivity].
  - apply Hdep. unfold v. now rewrite trim_idempotent.
  - exact Hdep.
Qed.

(** "veryslow" with capitals, between a no-break space and a line end. *)
Lemma parsePreset_spec_witness :
  parsePreset asciiLowerCase (nbsp ++ "VerySlow" ++ " ") = "veryslow"
  /\ parsePreset asciiLowerCase "placebo" = "ultrafast".
Proof.
  split.
  - destruct (parsePreset_spec asciiLowerCase (nbsp ++ "VerySlow" ++ " ")) as [_ [H _]].
    apply H. vm_compute. tauto.
  - destruct (parsePreset_spec asciiLowerCase "placebo") as [_ [_ [H _]]].
    apply H. vm_compute. intuition discriminate.
Defined.

(** X2: [parseBoolean] is true exactly for the values whose trimmed,
    lower-cased form is "true"; an undefined value is false.  The result
    does not change when the value is trimmed beforehand, and two values
    with the same trimmed, lower-cased form have the same result.  This
    holds whatever [toLowerCase] does. *)
Theorem parseBoolean_spec (toLowerCase : string -> string) (value : string) :
  (parseBoolean toLowerCase (Some value) = true <-> toLowerCase (Js.trim value) = "true")
  /\ parseBoolean toLowerCase None = false
  /\ parseBoolean toLowerCase (Some (Js.trim value)) = parseBoolean toLowerCase (Some value)
  /\ (forall other,
        toLowerCase (Js.trim other) = toLowerCase (Js.trim value) ->
        parseBoolean toLowerCase (Some other) = parseBoolean toLowerCase (Some value)).
Proof.
  split; [| split; [| split]].
  - unfold parseBoolean. apply String.eqb_eq.
  - reflexivity.
  - unfold parseBoolean. now rewrite trim_idempotent.
  - intros other E. unfold parseBoolean. now rewrite E.
Qed.

Lemma parseBoolean_spec_witness :
  parseBoolean asciiLowerCase (Some (nbsp ++ "TRUE" ++ nbsp)) = true
  /\ parseBoolean asciiLowerCase (Some " yes ") = parseBoolean asciiLowerCase (Some "yes").
Proof.
  split.
  - destruct (parseBoolean_spec asciiLowerCase (nbsp ++ "TRUE" ++ nbsp)) as [H _].
    apply H. reflexivity.
  - destruct (parseBoolean_spec asciiLowerCase "yes") as [_ [_ [_ H]]].
    apply H. reflexivity.
Defined.

(* ================================================================= *)
(** ** Further properties: the session state *)

(** X3: [cleanupStreamStatus] runs to its end without waiting and
    without throwing.  After a manual stop it does nothing at all;
    otherwise it aborts the current controller when there is one, stops
    the stream, leaves the voice channel, shows the idle activity and
    resets the stream status, channel information included.  The
    controller, the stream options and the catalog stay as they are. *)
Theorem cleanupStreamStatus_spec (s : Sys) :
  let s' := exec cleanupStreamStatus s in
  pending s' = pending s
  /\ (manualStop (streamStatus (world s)) = true -> world s' = world s)
  /\ (manualStop (streamStatus (world s)) = false ->
      streamStatus (world s') = resetStatus
      /\ trace (world s') = (trace (world s) ++ cleanupEffects (world s))%list
      /\ aborted (world s') = abortedFlags (world s)
      /\ controller (world s') = controller (world s)
      /\ streamOpts (world s') = streamOpts (world s)
      /\ videos (world s') = videos (world s)).
Proof.
  destruct s as [w ps]. destruct w as [st opts vids ctl flags cached tr].
  unfold cleanupStreamStatus, cleanupEffects, abortEffects, abortedFlags.
  simpl. destruct (manualStop st) eqn:Hm.
  - simpl. repeat split; intros; congruence.
  - destruct ctl as [c|]; simpl; (split; [reflexivity |]);
      (split; [discriminate |]); intros _; repeat split;
      repeat rewrite <- app_assoc; reflexivity.
Qed.

Lemma cleanupStreamStatus_spec_witness :
  streamStatus (world (exec cleanupStreamStatus activeSession)) = resetStatus
  /\ aborted (world (exec cleanupStreamStatus activeSession)) = [true].
Proof.
  destruct (cleanupStreamStatus_spec activeSession) as [_ [_ H]].
  destruct (H eq_refl) as [H1 [_ [H2 _]]].
  split; [exact H1 | exact H2].
Defined.

Section VoiceState.

Variable config : Config.

(** X4: when the client's own user leaves its voice channel, the
    [voiceStateUpdate] handler clears [joined], [joinsucc] and
    [playing], sets the channel information back to the configured
    channels and shows the idle activity.  It leaves [manualStop], the
    controller and its signals alone and stops nothing. *)
Theorem voice_leave (s : Sys) (oldState newState : VoiceState) :
  isSelf oldState = true ->
  Js.truthyOpt (vsChannelId oldState) = true ->
  Js.truthyOpt (vsChannelId newState) = false ->
  let s' := step config s (VoiceStateUpdate oldState newState) in
  pending s' = pending s
  /\ streamStatus (world s')
     = {| joined := false; joinsucc := false; playing := false;
          manualStop := manualStop (streamStatus (world s));
          channelInfo := configChannelInfo config |}
  /\ trace (world s') = (trace (world s) ++ [SetActivity status_idle])%list
  /\ controller (world s') = controller (world s)
  /\ aborted (world s') = aborted (world s)
  /\ streamOpts (world s') = streamOpts (world s).
Proof.
  intros Hself Hold Hnew. destruct s as [w ps].
  unfold step, voiceStateUpdate. rewrite Hself, Hold, Hnew.
  simpl. rewrite andb_false_r. simpl. repeat split.
Qed.

(** X5: when the client's own user enters a voice channel, the handler
    sets [joined]; it sets [joinsucc] when the guild and the channel are
    those of [streamStatus.channelInfo] and leaves it as it was
    otherwise.  Nothing else changes and nothing is done. *)
Theorem voice_join (s : Sys) (oldState newState : VoiceState) (channel : string) :
  isSelf newState = true ->
  vsChannelId newState = Some channel ->
  Js.truthy channel = true ->
  Js.truthyOpt (vsChannelId oldState) = false ->
  let s' := step config s (VoiceStateUpdate oldState newState) in
  let st := streamStatus (world s) in
  pending s' = pending s
  /\ world s'
     = withStatus
         {| joined := true;
            joinsucc := (String.eqb (vsGuildId newState) (ciGuildId (channelInfo st))
                         && String.eqb channel (ciChannelId (channelInfo st)))
                        || joinsucc st;
            playing := playing st; manualStop := manualStop st;
            channelInfo := channelInfo st |} (world s).
Proof.
  intros Hself Hch Ht Hold. destruct s as [w ps].
  unfold step, voiceStateUpdate. rewrite Hself, Hold, Hch.
  rewrite andb_false_r. simpl. rewrite Ht. simpl.
  unfold Js.orElse. rewrite Ht.
  split; [reflexivity |].
  destruct (String.eqb _ _ && String.eqb _ _); reflexivity.
Qed.

(** X6: every other voice state update is ignored: those of other
    users, and those of the client's own user that neither leave a
    channel nor enter one (a move between two channels, a mute). *)
Theorem voice_other (s : Sys) (oldState newState : VoiceState) :
  (isSelf oldState = false
   \/ Js.truthyOpt (vsChannelId oldState) = Js.truthyOpt (vsChannelId newState)) ->
  (isSelf newState = false
   \/ Js.truthyOpt (vsChannelId oldState) = Js.truthyOpt (vsChannelId newState)) ->
  step config s (VoiceStateUpdate oldState newState) = s.
Proof.
  intros H1 H2. destruct s as [w ps].
  unfold step, voiceStateUpdate.
  assert (E1 : isSelf oldState && Js.truthyOpt (vsChannelId oldState)
               && negb (Js.truthyOpt (vsChannelId newState)) = false).
  { destruct H1 as [-> | ->]; [reflexivity |].
    destruct (isSelf oldState), (Js.truthyOpt (vsChannelId newState)); reflexivity. }
  assert (E2 : isSelf newState && Js.truthyOpt (vsChannelId newState)
               && negb (Js.truthyOpt (vsChannelId oldState)) = false).
  { destruct H2 as [-> | ->]; [reflexivity |].
    destruct (isSelf newState), (Js.truthyOpt (vsChannelId newState)); reflexivity. }
  rewrite E1, E2. reflexivity.
Qed.

(** X7: [cleanupStreamStatus] empties the channel information.  A join
    event of the client's own user that is handled directly after it
    sets [joined] but cannot set [joinsucc], whatever the guild and the
    channel.  When the leave event of the own user is handled in
    between, the channel information is the configured one again, and
    the join event sets [joinsucc] exactly when the guild and the channel
    entered are the configured ones. *)
Theorem join_after_cleanup (s : Sys) (oldState newState left gone : VoiceState)
    (channel : string) :
  manualStop (streamStatus (world s)) = false ->
  isSelf newState = true ->
  vsChannelId newState = Some channel ->
  Js.truthy channel = true ->
  Js.truthyOpt (vsChannelId oldState) = false ->
  isSelf left = true ->
  Js.truthyOpt (vsChannelId left) = true ->
  Js.truthyOpt (vsChannelId gone) = false ->
  let cleaned := exec cleanupStreamStatus s in
  let direct := step config cleaned (VoiceStateUpdate oldState newState) in
  let later := step config (step config cleaned (VoiceStateUpdate left gone))
                 (VoiceStateUpdate oldState newState) in
  channelInfo (streamStatus (world cleaned)) = emptyChannelInfo
  /\ joined (streamStatus (world direct)) = true
  /\ joinsucc (streamStatus (world direct)) = false
  /\ channelInfo (streamStatus (world later)) = configChannelInfo config
  /\ joined (streamStatus (world later)) = true
  /\ joinsucc (streamStatus (world later))
     = (String.eqb (vsGuildId newState) (guildId config)
        && String.eqb channel (videoChannelId config)).
Proof.
  intros Hm Hself Hch Ht Hold Hlself Hleft Hgone. destruct s as [w ps].
  destruct w as [st opts vids ctl flags cached tr]. simpl in Hm.
  destruct channel as [|a channel]; [discriminate Ht |].
  unfold step, voiceStateUpdate, cleanupStreamStatus.
  rewrite Hself, Hold, Hch, Hlself, Hleft, Hgone, !andb_false_r. simpl. rewrite Hm.
  destruct ctl as [c|]; simpl; rewrite andb_false_r;
    (split; [reflexivity |]; split; [reflexivity |]; split; [reflexivity |];
     split; [reflexivity |]; split; [reflexivity |];
     destruct (_ && _); reflexivity).
Qed.

End VoiceState.

Lemma voice_leave_witness :
  joined (streamStatus (world (step exampleConfig activeSession
            (VoiceStateUpdate {| isSelf := true; vsChannelId := Some "voice"; vsGuildId := "guild" |}
                              {| isSelf := true; vsChannelId := None; vsGuildId := "guild" |}))))
  = false.
Proof.
  destruct (voice_leave exampleConfig activeSession
              {| isSelf := true; vsChannelId := Some "voice"; vsGuildId := "guild" |}
              {| isSelf := true; vsChannelId := None; vsGuildId := "guild" |}
              eq_refl eq_refl eq_refl) as [_ [H _]].
  rewrite H. reflexivity.
Defined.

Lemma voice_join_witness :
  joinsucc (streamStatus (world (step exampleConfig (start bootWorld)
              (VoiceStateUpdate {| isSelf := true; vsChannelId := None; vsGuildId := "guild" |}
                                {| isSelf := true; vsChannelId := Some "voice"; vsGuildId := "guild" |}))))
  = true.
Proof.
  destruct (voice_join exampleConfig (start bootWorld)
              {| isSelf := true; vsChannelId := None; vsGuildId := "guild" |}
              {| isSelf := true; vsChannelId := Some "voice"; vsGuildId := "guild" |}
              "voice" eq_refl eq_refl eq_refl eq_refl) as [_ H].
  rewrite H. reflexivity.
Defined.

Lemma voice_other_witness :
  step exampleConfig activeSession
    (VoiceStateUpdate {| isSelf := false; vsChannelId := Some "voice"; vsGuildId := "guild" |}
                      {| isSelf := false; vsChannelId := None; vsGuildId := "guild" |})
  = activeSession.
Proof.
  apply (voice_other exampleConfig); left; reflexivity.
Defined.

(** A session is cleaned up; the client leaves and enters the configured
    channel again. *)
Lemma join_after_cleanup_witness :
  let own channel := {| isSelf := true; vsChannelId := channel; vsGuildId := "guild" |} in
  joinsucc (streamStatus (world
    (step exampleConfig (exec cleanupStreamStatus activeSession)
       (VoiceStateUpdate (own None) (own (Some "voice")))))) = false
  /\ joinsucc (streamStatus (world
       (step exampleConfig
          (step exampleConfig (exec cleanupStreamStatus activeSession)
             (VoiceStateUpdate (own (Some "voice")) (own None)))
          (VoiceStateUpdate (own None) (own (Some "voice")))))) = true.
Proof.
  intros own.
  destruct (join_after_cleanup exampleConfig activeSession (own None) (own (Some "voice"))
              (own (Some "voice")) (own None) "voice"
              eq_refl eq_refl eq_refl eq_refl eq_refl eq_refl eq_refl eq_refl)
    as [_ [_ [H1 [_ [_ H2]]]]].
  split; [exact H1 | exact H2].
Defined.

(* ================================================================= *)
(** ** Further properties: commands that start nothing *)

Section Usage.

Variable config : Config.

(** X8: a command that lacks its argument is answered by an error and
    starts nothing: [playlink] without a link and, when the Jellyfin
    client exists, [jfplay] without an item, both while nothing is
    joined, and [ytplay] without a title.  [jfplay] is answered that the
    integration is not enabled when the client does not exist, whether
    a session is joined or not. *)
Theorem usage_errors (s : Sys) (message : Message) (user_cmd : Command)
    (args : list string) (text : string) (o : Oracle) (reply : Message) :
  (user_cmd = playlink /\ joined (streamStatus (world s)) = false
   /\ Js.truthyOpt (hd_error args) = false /\ text = "Please provide a link.")
  \/ (user_cmd = ytplay /\ Js.truthy (ytTitle args) = false
      /\ text = "Please provide a video title.")
  \/ (user_cmd = jfplay /\ jellyfin_enabled config = true
      /\ joined (streamStatus (world s)) = false
      /\ Js.truthyOpt (hd_error args) = false /\ text = "Please provide a Jellyfin item ID")
  \/ (user_cmd = jfplay /\ jellyfin_enabled config = false
      /\ text = "Jellyfin integration is not enabled") ->
  o (React message "❌") = Resolved tt ->
  o (Reply message (errorText text)) = Resolved reply ->
  run config s [MessageCreate message user_cmd args;
                Settle (List.length (pending s)) o; Settle (List.length (pending s)) o]
  = {| world := logged (Call (Reply message (errorText text)))
                  (logged (Call (React message "❌")) (world s));
       pending := pending s |}.
Proof.
  intros Hcmd Hreact Hreply.
  assert (E1 : step config s (MessageCreate message user_cmd args)
               = {| world := logged (Call (React message "❌")) (world s);
                    pending := (pending s ++
                      [{| awaited := React message "❌";
                          resume := fun r =>
                            (match r with
                             | Resolved a => Ret a
                             | Rejected e => Throw e
                             end ;;
                             call (Reply message (errorText text)) ;;
                             Ret tt) |}])%list |}).
  { destruct Hcmd as [[-> [Hj [Ha ->]]] | [[-> [Ha ->]] | [[-> [Hjf [Hj [Ha ->]]]] | [-> [Hjf ->]]]]];
      unfold step, messageCreate, onPlaylink, onYtplay, onJfplay.
    - vsimpl. rewrite Hj. vsimpl.
      destruct (hd_error args) as [v|]; simpl in Ha |- *.
      + unfold Js.orElse. rewrite Ha. reflexivity.
      + reflexivity.
    - rewrite Ha. reflexivity.
    - rewrite Hjf. vsimpl. rewrite Hj. vsimpl.
      destruct (hd_error args) as [v|]; simpl in Ha |- *.
      + rewrite Ha. reflexivity.
      + reflexivity.
    - rewrite Hjf. reflexivity. }
  rewrite run_cons, E1, run_cons, step_settle_last, Hreact. vsimpl.
  rewrite run_cons, step_settle_last. vsimpl. rewrite Hreply. reflexivity.
Qed.

End Usage.

(** [jfplay] during an active session, without a Jellyfin client. *)
Lemma usage_errors_witness :
  run exampleConfig activeSession
    [MessageCreate secondMessage jfplay ["abc"];
     Settle (List.length (pending activeSession)) fulfilled;
     Settle (List.length (pending activeSession)) fulfilled]
  = {| world := logged (Call (Reply secondMessage
                                (errorText "Jellyfin integration is not enabled")))
                  (logged (Call (React secondMessage "❌")) (world activeSession));
       pending := pending activeSession |}.
Proof.
  apply (usage_errors exampleConfig activeSession secondMessage jfplay ["abc"]
           "Jellyfin integration is not enabled" fulfilled {| msgId := 21 |}).
  - right. right. right. repeat split.
  - reflexivity.
  - reflexivity.
Defined.

(* ================================================================= *)
(** ** Further properties: links that cannot be played *)

Lemma isYoutube_truthy (link : string) : isYoutube link = true -> Js.truthy link = true.
Proof.
  destruct link; [discriminate | reflexivity].
Qed.

Lemma includes_truthy (link sub : string) :
  Js.truthy sub = true -> Js.includes link sub = true -> Js.truthy link = true.
Proof.
  destruct link; [| reflexivity]. destruct sub; discriminate.
Qed.

Section Links.

Variable config : Config.

(** X9: [playlink] on a YouTube link whose metadata cannot be had, while
    nothing is joined: when the lookup gives nothing or gives no title
    the answer is "Failed to process YouTube link.", when it fails the
    answer is "Error processing YouTube link.".  [playVideo] is not
    called: the lookup and the answer are the only effects and the
    state is as before. *)
Theorem playlink_youtube_failure (s : Sys) (message : Message) (args : list string)
    (text : string) (o : Oracle) (reply : Message) :
  let link := Js.orElseOpt (hd_error args) "" in
  joined (streamStatus (world s)) = false ->
  isYoutube link = true ->
  match o (GetVideoInfo link) with
  | Resolved (Some info) =>
      Js.truthy (viTitle info) = false /\ text = "Failed to process YouTube link."
  | Resolved None => text = "Failed to process YouTube link."
  | Rejected _ => text = "Error processing YouTube link."
  end ->
  o (React message "❌") = Resolved tt ->
  o (Reply message (errorText text)) = Resolved reply ->
  let n := List.length (pending s) in
  run config s [MessageCreate message playlink args; Settle n o; Settle n o; Settle n o]
  = {| world := logged (Call (Reply message (errorText text)))
                  (logged (Call (React message "❌"))
                     (logged (Call (GetVideoInfo link)) (world s)));
       pending := pending s |}.
Proof.
  intros link Hj Hy Hinfo Hreact Hreply n.
  pose proof (isYoutube_truthy link Hy) as Ht.
  destruct s as [w ps]. simpl in Hj. unfold n. cbn [pending world].
  unfold errorText in Hreply.
  rewrite run_cons, step_message_eq. unfold messageCreate, onPlaylink.
  fold link. vsimpl. rewrite Hj. vsimpl. rewrite Ht, Hy. vsimpl.
  rewrite run_cons, step_settle_last.
  destruct (o (GetVideoInfo link)) as [[info|]|e].
  - destruct Hinfo as [Hti ->]. simpl in Hreply. vsimpl. rewrite Hti. vsimpl.
    rewrite run_cons, step_settle_last, Hreact. vsimpl.
    rewrite run_cons, step_settle_last. vsimpl.
    rewrite Hreply. reflexivity.
  - subst text. simpl in Hreply. vsimpl.
    rewrite run_cons, step_settle_last, Hreact. vsimpl.
    rewrite run_cons, step_settle_last. vsimpl.
    rewrite Hreply. reflexivity.
  - subst text. simpl in Hreply. vsimpl.
    rewrite run_cons, step_settle_last, Hreact. vsimpl.
    rewrite run_cons, step_settle_last. vsimpl.
    rewrite Hreply. reflexivity.
Qed.

(** X10: [playlink] on a Twitch link for which no rendition address is
    found (the playlist lookup fails, or gives no rendition, or a
    rendition without an address), while nothing is joined: the command
    ends without any answer to the user; the lookup is its only
    effect. *)
Theorem playlink_twitch_unresolved (s : Sys) (message : Message) (args : list string)
    (o : Oracle) :
  let link := Js.orElseOpt (hd_error args) "" in
  joined (streamStatus (world s)) = false ->
  isYoutube link = false ->
  Js.includes link "twitch.tv" = true ->
  match playlistLookup o link with
  | Resolved streams => renditionUrl (selectRendition config streams) = None
  | Rejected _ => True
  end ->
  run config s [MessageCreate message playlink args; Settle (List.length (pending s)) o]
  = {| world := logged (Call (if Js.includes link "/videos/"
                              then GetVod (Js.splitPop link "/videos/")
                              else GetStream (Js.splitPop link "/"))) (world s);
       pending := pending s |}.
Proof.
  intros link Hj Hy Htw Hlook.
  pose proof (includes_truthy link "twitch.tv" eq_refl Htw) as Ht.
  destruct s as [w ps]. simpl in Hj. cbn [pending world].
  rewrite run_cons, step_message_eq. unfold messageCreate, onPlaylink.
  fold link. vsimpl. rewrite Hj. vsimpl. rewrite Ht, Hy, Htw. vsimpl.
  unfold getTwitchStreamUrl, playlistLookup in *.
  destruct (Js.includes link "/videos/"); vsimpl;
    rewrite run_cons, step_settle_last, run_nil;
    match goal with
    | H : match o ?q with Resolved _ => _ | Rejected _ => _ end |- _ =>
        destruct (o q) as [streams|e]
    end; vsimpl; rewrite ?Hlook; reflexivity.
Qed.

(** X11: [ytplay] whose search fails (either search call fails, or the
    result lacks its address or its title) answers "Failed to play
    video. Please try again." after it has run [cleanupStreamStatus];
    no check of [streamStatus.joined] comes first.  Unless the last stop
    was manual, the session that is active at that time is torn down:
    its controller is aborted, the stream is stopped, the voice channel
    is left and the status is reset. *)
Theorem ytplay_failed_search (s : Sys) (message : Message) (args : list string)
    (o : Oracle) (reply : Message) (evs : list Event) :
  let title := ytTitle args in
  let n := List.length (pending s) in
  let failure := errorText "Failed to play video. Please try again." in
  Js.truthy title = true ->
  o (React message "❌") = Resolved tt ->
  o (Reply message failure) = Resolved reply ->
  ((exists e, o (YtsSearch title) = Rejected e)
   /\ evs = [MessageCreate message ytplay args; Settle n o; Settle n o; Settle n o])
  \/ (o (YtsSearch title) = Resolved tt
      /\ match o (SearchAndGetPageUrl title) with
         | Resolved r => Js.truthyOpt (pageUrl r) && Js.truthyOpt (srTitle r) = false
         | Rejected _ => True
         end
      /\ evs = [MessageCreate message ytplay args;
                Settle n o; Settle n o; Settle n o; Settle n o]) ->
  let s' := run config s evs in
  exists suffix,
    pending s' = pending s
    /\ trace (world s') = (trace (world s) ++ suffix)%list
    /\ terminalNotifications suffix = [Failed failure]
    /\ joins suffix = []
    /\ pipelineInputs suffix = []
    /\ (manualStop (streamStatus (world s)) = true ->
        streamStatus (world s') = streamStatus (world s)
        /\ aborted (world s') = aborted (world s))
    /\ (manualStop (streamStatus (world s)) = false ->
        streamStatus (world s') = resetStatus
        /\ aborted (world s') = abortedFlags (world s)
        /\ In StopStream suffix
        /\ In LeaveVoice suffix).
Proof.
  intros title n failure Ht Hreact Hreply Hevs s'.
  destruct s as [w ps]. destruct w as [st opts vids ctl flags cached tr].
  unfold failure, errorText in Hreply. simpl in Hreply.
  unfold s', n, abortedFlags. cbn [pending world streamStatus aborted trace controller].
  destruct Hevs as [[[e He] ->] | [Hs [Hr ->]]];
    rewrite run_cons, step_message_eq; unfold messageCreate, onYtplay;
    fold title; rewrite Ht; vsimpl;
    rewrite run_cons, step_settle_last, ?He, ?Hs; vsimpl.
  - unfold cleanupStreamStatus. vsimpl.
    destruct (manualStop st) eqn:Hm; [| destruct ctl as [c|]]; vsimpl;
      rewrite run_cons, step_settle_last, Hreact; vsimpl;
      rewrite run_cons, step_settle_last, Hreply, run_nil; vsimpl;
      (eexists; split; [reflexivity |]; suffix; split; [reflexivity |];
       split; [reflexivity |]; split; [reflexivity |]; split; [reflexivity |];
       split; [intros H; first [discriminate H | split; reflexivity] |];
       intros H;
       first [discriminate H
             | split; [reflexivity |]; split; [reflexivity |]; simpl; tauto]).
  - rewrite run_cons, step_settle_last.
    destruct (o (SearchAndGetPageUrl title)) as [r|e]; vsimpl; rewrite ?Hr; vsimpl;
      unfold cleanupStreamStatus; vsimpl;
      (destruct (manualStop st) eqn:Hm; [| destruct ctl as [c|]]; vsimpl;
       rewrite run_cons, step_settle_last, Hreact; vsimpl;
       rewrite run_cons, step_settle_last, Hreply, run_nil; vsimpl;
       (eexists; split; [reflexivity |]; suffix; split; [reflexivity |];
        split; [reflexivity |]; split; [reflexivity |]; split; [reflexivity |];
        split; [intros H; first [discriminate H | split; reflexivity] |];
        intros H;
        first [discriminate H
              | split; [reflexivity |]; split; [reflexivity |]; simpl; tauto])).
Qed.

End Links.

(** [playlink] on a YouTube link about which nothing is known. *)
Lemma playlink_youtube_failure_witness :
  run exampleConfig (start bootWorld)
    [MessageCreate playMessage playlink [youtubeLink];
     Settle 0 fulfilled; Settle 0 fulfilled; Settle 0 fulfilled]
  = {| world := logged (Call (Reply playMessage (errorText "Failed to process YouTube link.")))
                  (logged (Call (React playMessage "❌"))
                     (logged (Call (GetVideoInfo youtubeLink)) bootWorld));
       pending := [] |}.
Proof.
  exact (playlink_youtube_failure exampleConfig (start bootWorld) playMessage [youtubeLink]
           "Failed to process YouTube link." fulfilled {| msgId := 2 |}
           eq_refl eq_refl eq_refl eq_refl eq_refl).
Defined.

(** [playlink] on a channel that is not live. *)
Lemma playlink_twitch_unresolved_witness :
  run exampleConfig (start bootWorld)
    [MessageCreate playMessage playlink [twitchLink]; Settle 0 fulfilled]
  = {| world := logged (Call (GetStream "somebody")) bootWorld; pending := [] |}.
Proof.
  exact (playlink_twitch_unresolved exampleConfig (start bootWorld) playMessage [twitchLink]
           fulfilled eq_refl eq_refl eq_refl eq_refl).
Defined.

(** [ytplay] finds nothing while a direct link is streaming: the
    session is torn down. *)
Lemma ytplay_failed_search_witness :
  streamStatus (world (run exampleConfig activeSession
                         [MessageCreate secondMessage ytplay ["cats"];
                          Settle 1 fulfilled; Settle 1 fulfilled; Settle 1 fulfilled;
                          Settle 1 fulfilled]))
  = resetStatus.
Proof.
  destruct (ytplay_failed_search exampleConfig activeSession secondMessage ["cats"]
              fulfilled {| msgId := 21 |} _ eq_refl eq_refl eq_refl
              (or_intror (conj eq_refl (conj eq_refl eq_refl))))
    as [suffix [_ [_ [_ [_ [_ [_ H]]]]]]].
  exact (proj1 (H eq_refl)).
Defined.

(* ================================================================= *)
(** ** Further properties: a stop that cannot be confirmed *)

Section Unconfirmed.

Variable config : Config.

(** X12: a [stop] command during a joined session whose confirmation
    cannot be sent (the reaction fails, or the message after it) marks
    the stop as manual and aborts the controller, and then gives up:
    the stream is not stopped, the voice channel is not left and
    [joined] stays true.  The failure is caught and goes unreported. *)
Theorem stop_unconfirmed (s : Sys) (message : Message) (args : list string)
    (o : Oracle) (evs : list Event) (sent : list Effect) :
  let n := List.length (pending s) in
  joined (streamStatus (world s)) = true ->
  ((exists e, o (React message "✅") = Rejected e)
   /\ evs = [MessageCreate message stop args; Settle n o]
   /\ sent = [Call (React message "✅")])
  \/ (o (React message "✅") = Resolved tt
      /\ (exists e, o (ChannelSend message stoppedText) = Rejected e)
      /\ evs = [MessageCreate message stop args; Settle n o; Settle n o]
      /\ sent = [Call (React message "✅"); Call (ChannelSend message stoppedText)]) ->
  let s' := run config s evs in
  let st := streamStatus (world s) in
  pending s' = pending s
  /\ streamStatus (world s')
     = {| joined := true; joinsucc := joinsucc st; playing := playing st;
          manualStop := true; channelInfo := channelInfo st |}
  /\ controller (world s') = controller (world s)
  /\ aborted (world s') = abortedFlags (world s)
  /\ trace (world s') = (trace (world s) ++ abortEffects (world s) ++ sent)%list.
Proof.
  intros n Hj Hevs s' st0.
  destruct s as [w ps]. destruct w as [st opts vids ctl flags cached tr].
  simpl in Hj. unfold s', st0, n, abortedFlags, abortEffects.
  cbn [pending world streamStatus aborted trace controller].
  destruct Hevs as [[[e He] [-> ->]] | [Hr [[e He] [-> ->]]]];
    unfold stoppedText in *;
    rewrite run_cons, step_message_eq; unfold messageCreate, onStop;
    (destruct ctl as [c|]; vsimpl; rewrite Hj; vsimpl;
     rewrite run_cons, step_settle_last, ?Hr, ?He; vsimpl;
     rewrite ?run_cons, ?step_settle_last, ?He, ?run_nil; vsimpl;
     rewrite <- Hj; repeat split; suffix; reflexivity).
Qed.

End Unconfirmed.

(** The reaction to the [stop] command fails while a direct link is
    streaming. *)
Lemma stop_unconfirmed_witness :
  joined (streamStatus (world (run exampleConfig activeSession
                                 [MessageCreate stopMessage stop []; Settle 1 rejected])))
  = true.
Proof.
  destruct (stop_unconfirmed exampleConfig activeSession stopMessage [] rejected
              _ _ eq_refl
              (or_introl (conj (ex_intro _ (Error "failed") eq_refl) (conj eq_refl eq_refl))))
    as [_ [H _]].
  exact (f_equal joined H).
Defined.

(* ================================================================= *)
(** ** Further properties: the start of a playback attempt *)

Section Start.

Variable config : Config.




End Start.



Lemma takeNth_app_hd {A : Type} (l : list A) (x : A) (rest : list A) :
  takeNth (List.length l) (l ++ x :: rest) = Some (x, (l ++ rest)%list).
Proof.
  induction l as [|y l IH]; simpl.
  - reflexivity.
  - now rewrite IH.
Qed.

Section Local.

Variable config : Config.

(** X15: a [play] command for a video of the catalog, while nothing is
    joined, starts ffmpeg on the path of that video.  The user is told
    "Now Playing" twice: once by the handler, once by [playVideo] after
    the join.  When [respect_video_params] is set the file is probed
    first and the stream options are changed for good, the maximal
    bitrate being taken from the measured bitrate; a probe that fails is
    ignored. *)
Theorem play_local (s : Sys) (message : Message) (args : list string) (v : string)
    (video : Video) (o : Oracle) (evs : list Event) (opts' : StreamOpts) :
  let w := world s in
  let n := List.length (pending s) in
  joined (streamStatus w) = false ->
  hd_error args = Some v ->
  find (fun m => String.eqb (name m) v) (videos w) = Some video ->
  isYoutube (path video) = false ->
  o (JoinVoice (guildId config) (videoChannelId config)) = Resolved tt ->
  o (PromiseAll (React message "▶️")
       (Reply message (playingText (Js.orElse v "Local Video")))) = Resolved tt ->
  o (PromiseAll (React message "▶️")
       (Reply message (playingText (Js.orElse v (path video))))) = Resolved tt ->
  (respect_video_params config = false
   /\ evs = [MessageCreate message play args; Settle n o; Settle n o; Settle n o]
   /\ opts' = streamOpts w)
  \/ (respect_video_params config = true
      /\ evs = [MessageCreate message play args;
                Settle n o; Settle n o; Settle n o; Settle n o]
      /\ opts' = match o (GetVideoParams (path video)) with
                 | Resolved r => respectVideoParams r (streamOpts w)
                 | Rejected _ => streamOpts w
                 end) ->
  let s' := run config s evs in
  exists suffix,
    map awaited (pending s')
    = (map awaited (pending s) ++ [PlayStream (path video) (List.length (aborted w))])%list
    /\ joined (streamStatus (world s')) = true
    /\ streamOpts (world s') = opts'
    /\ trace (world s') = (trace w ++ suffix)%list
    /\ playingNotices suffix
       = [playingText (Js.orElse v "Local Video"); playingText (Js.orElse v (path video))]
    /\ pipelineInputs suffix = [path video]
    /\ pipelineOptions suffix = [opts'].
Proof.
  intros w n Hj Hv Hfind Hy Hjoin Hp1 Hp2 Hevs. hold.
  destruct s as [w0 ps]. destruct w0 as [st opts vids ctl flags cached tr].
  unfold w, n in *. clear w n.
  cbn [world pending streamStatus videos streamOpts aborted trace] in *.
  unfold playingText in *.
  destruct Hevs as [[Hr [-> ->]] | [Hr [-> ->]]];
    rewrite run_cons, step_message_eq; unfold messageCreate, onPlay;
    vsimpl; rewrite Hj, Hv; vsimpl; rewrite Hfind; vsimpl; rewrite Hr; vsimpl.
  - unfold playVideo. rewrite Hy. vsimpl. suffix.
    rewrite run_cons, step_settle_eq, takeNth_app_hd. vsimpl.
    destruct v as [|a v']; simpl in Hp1, Hp2; vsimpl; rewrite Hp1; vsimpl;
      rewrite run_cons, step_settle_eq, takeNth_app_hd; vsimpl; rewrite Hjoin; vsimpl;
      suffix;
      rewrite run_cons, step_settle_eq, takeNth_app_hd; vsimpl; rewrite Hp2; vsimpl;
      (destruct ctl as [c0|]; vsimpl; autorewrite with flags;
       rewrite ?run_nil; intros s' ->; vsimpl;
       rewrite ?app_nil_r, map_app;
       (eexists; split; [reflexivity |]; split; [reflexivity |];
        split; [reflexivity |]; suffix; split; [reflexivity |]; repeat split)).
  - rewrite run_cons, step_settle_eq, takeNth_app_hd. unfold playVideo. rewrite Hy.
    vsimpl.
    destruct (o (GetVideoParams (path video))) as [r|e]; vsimpl; suffix;
      (rewrite run_cons, step_settle_eq, takeNth_app_hd; vsimpl;
       destruct v as [|a v']; simpl in Hp1, Hp2; vsimpl; rewrite Hp1; vsimpl;
       rewrite run_cons, step_settle_eq, takeNth_app_hd; vsimpl; rewrite Hjoin; vsimpl;
       suffix;
       rewrite run_cons, step_settle_eq, takeNth_app_hd; vsimpl; rewrite Hp2; vsimpl;
       (destruct ctl as [c0|]; vsimpl; autorewrite with flags;
        rewrite ?run_nil; intros s' ->; vsimpl;
        rewrite ?app_nil_r, map_app;
        (eexists; split; [reflexivity |]; split; [reflexivity |];
         split; [reflexivity |]; suffix; split; [reflexivity |]; repeat split))).
Qed.

End Local.

(** A local video is played when nothing else is. *)
Lemma play_local_witness :
  exists suffix,
    map awaited (pending (run exampleConfig (start (initialWorld exampleConfig catalog true))
                            [MessageCreate playMessage play ["intro"];
                             Settle 0 fulfilled; Settle 0 fulfilled; Settle 0 fulfilled]))
    = [PlayStream "videos/intro.mp4" 0]
    /\ playingNotices suffix = [playingText "intro"; playingText "intro"]
    /\ pipelineInputs suffix = ["videos/intro.mp4"].
Proof.
  destruct (play_local exampleConfig (start (initialWorld exampleConfig catalog true))
              playMessage ["intro"] "intro" {| name := "intro"; path := "videos/intro.mp4" |}
              fulfilled _ _ eq_refl eq_refl eq_refl eq_refl eq_refl eq_refl eq_refl
              (or_introl (conj eq_refl (conj eq_refl eq_refl))))
    as [suffix [H1 [_ [_ [_ [H2 [H3 _]]]]]]].
  exists suffix. repeat split; assumption.
Defined.

(* ================================================================= *)
(** ** Further properties: the notifications *)

(** X16: [sendError] and [sendSuccess] send their text only after the
    reaction has been added: when the reaction fails they throw and the
    text is never sent.  [sendPlaying] starts the reaction and the reply
    together, so that the reply is sent even when the reaction fails.
    [sendFinishMessage] neither waits nor throws, and sends nothing when
    the command channel is not in the cache. *)
Theorem notifications_spec (o : Oracle) (message : Message) (text : string) (w : World)
    (e : Exn) :
  (o (React message "❌") = Rejected e ->
   runAlone o (sendError message text) w
   = Some (logged (Call (React message "❌")) w, Thrown e))
  /\ (o (React message "✅") = Rejected e ->
      runAlone o (sendSuccess message text) w
      = Some (logged (Call (React message "✅")) w, Thrown e))
  /\ (exists r,
        runAlone o (sendPlaying message text) w
        = Some (logged (Call (Reply message (playingText text)))
                  (logged (Call (React message "▶️")) w), r)
        /\ (o (PromiseAll (React message "▶️") (Reply message (playingText text)))
            = Rejected e -> r = Thrown e))
  /\ runAlone o sendFinishMessage w
     = Some (if cmdChannelCached w then logged (Call (CmdChannelSend finishedText)) w else w,
             Returned tt).
Proof.
  unfold playingText. repeat split.
  - intros H. unfold sendError. simpl. rewrite H. reflexivity.
  - intros H. unfold sendSuccess. simpl. rewrite H. reflexivity.
  - unfold sendPlaying. simpl.
    destruct (o (PromiseAll _ _)) as [[]|e'] eqn:E; simpl; eexists;
      (split; [reflexivity |]); intros H; [discriminate H | congruence].
  - unfold sendFinishMessage. simpl. destruct (cmdChannelCached w); reflexivity.
Qed.

Lemma notifications_spec_witness :
  runAlone rejected (sendError playMessage "Video not found") bootWorld
  = Some (logged (Call (React playMessage "❌")) bootWorld, Thrown (Error "failed")).
Proof.
  destruct (notifications_spec rejected playMessage "Video not found" bootWorld
              (Error "failed")) as [H _].
  apply H. reflexivity.
Defined.

(* ================================================================= *)
(** ** Further properties: Twitch links *)

Lemma prefix_empty (s : string) : String.prefix "" s = true.
Proof. destruct s; reflexivity. Qed.

Lemma prefix_slash (c : ascii) (s : string) :
  String.prefix "/" (String c s) = if Ascii.ascii_dec "/" c then true else false.
Proof.
  change (String.prefix "/" (String c s))
    with (if Ascii.ascii_dec "/" c then String.prefix "" s else false).
  destruct (Ascii.ascii_dec "/" c); [apply prefix_empty | reflexivity].
Qed.

Lemma includes_cons_slash (c : ascii) (s : string) :
  Js.includes (String c s) "/"
  = (if Ascii.ascii_dec "/" c then true else false) || Js.includes s "/".
Proof.
  change (Js.includes (String c s) "/")
    with (String.prefix "/" (String c s) || Js.includes s "/").
  now rewrite prefix_slash.
Qed.

Lemma includes_slash_app (a b : string) :
  Js.includes (a ++ b) "/" = Js.includes a "/" || Js.includes b "/".
Proof.
  induction a as [|c a IH].
  - reflexivity.
  - change (String c a ++ b) with (String c (a ++ b)).
    rewrite !includes_cons_slash, IH. now rewrite orb_assoc.
Qed.

Lemma append_assoc (a b c : string) : (a ++ b) ++ c = a ++ b ++ c.
Proof.
  induction a as [|x a IH]; simpl; [reflexivity | now rewrite IH].
Qed.

Lemma append_empty_r (a : string) : a ++ "" = a.
Proof.
  induction a as [|x a IH]; simpl; [reflexivity | now rewrite IH].
Qed.

Lemma splitPopFrom_slash_cons (c : ascii) (s last : string) :
  Js.splitPopFrom "/" (String c s) 0 last
  = if Ascii.ascii_dec "/" c
    then Js.splitPopFrom "/" s 0 s
    else Js.splitPopFrom "/" s 0 last.
Proof.
  change (Js.splitPopFrom "/" (String c s) 0 last)
    with (if String.prefix "/" (String c s)
          then Js.splitPopFrom "/" s 0 s
          else Js.splitPopFrom "/" s 0 last).
  rewrite prefix_slash. destruct (Ascii.ascii_dec "/" c); reflexivity.
Qed.

(** What [splitPopFrom] does for the separator "/". *)
Lemma splitPopFrom_slash (s pre : string) :
  Js.includes pre "/" = false ->
  Js.includes (Js.splitPopFrom "/" s 0 (pre ++ s)) "/" = false
  /\ exists before,
       pre ++ s = before ++ Js.splitPopFrom "/" s 0 (pre ++ s)
       /\ (before = "" \/ exists p, before = p ++ "/").
Proof.
  revert pre. induction s as [|c s IH]; intros pre Hp.
  - simpl. rewrite append_empty_r. split; [exact Hp |].
    exists "". split; [reflexivity | now left].
  - rewrite splitPopFrom_slash_cons.
    destruct (Ascii.ascii_dec "/" c) as [E|E].
    + subst c. destruct (IH "" eq_refl) as [H1 [before [H2 H3]]].
      simpl in H1, H2. split; [exact H1 |].
      exists (pre ++ "/" ++ before). split.
      * rewrite !append_assoc. simpl. now rewrite <- H2.
      * right. destruct H3 as [-> | [p ->]].
        -- exists pre. reflexivity.
        -- exists (pre ++ "/" ++ p). now rewrite !append_assoc.
    + assert (Hpre : Js.includes (pre ++ String c "") "/" = false).
      { rewrite includes_slash_app, Hp, includes_cons_slash.
        destruct (Ascii.ascii_dec "/" c); [contradiction | reflexivity]. }
      assert (Eq : pre ++ String c s = (pre ++ String c "") ++ s)
        by now rewrite append_assoc.
      rewrite Eq. exact (IH _ Hpre).
Qed.

Lemma splitPopFrom_trailing_slash (s last : string) :
  Js.splitPopFrom "/" (s ++ "/") 0 last = "".
Proof.
  revert last. induction s as [|c s IH]; intros last.
  - reflexivity.
  - change (String c s ++ "/") with (String c (s ++ "/")).
    rewrite splitPopFrom_slash_cons.
    destruct (Ascii.ascii_dec "/" c); apply IH.
Qed.

(** X17: the channel name that [playlink] and [getTwitchStreamUrl] take
    from a Twitch link, [link.split('/').pop()], is what follows the
    last slash of the link: it contains no slash, and what precedes it
    is empty or ends with a slash.  A link that ends with a slash gives
    the empty name. *)
Theorem splitPop_slash (link : string) :
  Js.includes (Js.splitPop link "/") "/" = false
  /\ (exists before,
        link = before ++ Js.splitPop link "/"
        /\ (before = "" \/ exists p, before = p ++ "/"))
  /\ Js.splitPop (link ++ "/") "/" = "".
Proof.
  unfold Js.splitPop.
  destruct (splitPopFrom_slash link "" eq_refl) as [H1 H2].
  split; [exact H1 |]. split; [exact H2 |].
  apply splitPopFrom_trailing_slash.
Qed.

Section TwitchChoice.

Variable config : Config.

(** X18: [getTwitchStreamUrl] makes one choice only: when the rendition
    it selects has no address it returns [null], whatever the other
    renditions of the playlist offer. *)
Theorem getTwitchStreamUrl_single_choice (o : Oracle) (link : string) (w : World)
    (first : TwitchStream) (others : list TwitchStream) :
  playlistLookup o link = Resolved (first :: others) ->
  (forall r, In r (first :: others) -> resolution r <> targetResolution config) ->
  url first = "" ->
  exists w', runAlone o (getTwitchStreamUrl config link) w = Some (w', Returned None).
Proof.
  intros Hlook Hnone Hurl.
  destruct (getTwitchStreamUrl_runAlone config o link w) as [w' Hrun].
  exists w'. rewrite Hrun, Hlook.
  rewrite (selectRendition_fallback config _ Hnone). simpl. now rewrite Hurl.
Qed.

End TwitchChoice.

(** The first rendition has no address, the second has one. *)
Lemma getTwitchStreamUrl_single_choice_witness :
  exists w',
    runAlone (playlistOf [{| quality := "audio"; resolution := "0x0"; url := "" |};
                          {| quality := "480p"; resolution := "852x480";
                             url := "https://cdn.example/480.m3u8" |}])
      (getTwitchStreamUrl exampleConfig twitchLink) bootWorld
    = Some (w', Returned None).
Proof.
  apply (getTwitchStreamUrl_single_choice exampleConfig _ twitchLink bootWorld
           {| quality := "audio"; resolution := "0x0"; url := "" |}
           [{| quality := "480p"; resolution := "852x480";
               url := "https://cdn.example/480.m3u8" |}]).
  - reflexivity.
  - intros r [<- | [<- | []]]; discriminate.
  - reflexivity.
Defined.

(* ================================================================= *)
(** ** Further properties: from a message to a command *)

Lemma splitSpaces_cons (s : string) : exists w ws, splitSpaces s = w :: ws.
Proof.
  induction s as [|c s [w [ws IH]]].
  - now exists "", [].
  - simpl. destruct (Ascii.eqb c " ").
    + destruct s as [|c' s'].
      * now exists "", [""].
      * destruct (Ascii.eqb c' " "); [now exists w, ws | eauto].
    + rewrite IH. eauto.
Qed.

Lemma splitSpaces_noSpace (s : string) : Forall noSpace (splitSpaces s).
Proof.
  assert (Hempty : noSpace "") by (intros []).
  induction s as [|c s IH].
  - repeat constructor. exact Hempty.
  - simpl. destruct (Ascii.eqb c " ") eqn:E.
    + destruct s as [|c' s'].
      * repeat constructor; exact Hempty.
      * destruct (Ascii.eqb c' " "); [exact IH | constructor; [exact Hempty | exact IH]].
    + destruct (splitSpaces s) as [|w ws].
      * constructor; [| constructor].
        intros [H | []]. subst c. discriminate E.
      * inversion IH as [|? ? Hw Hws]. subst. constructor; [| exact Hws].
        intros [H | H]; [subst c; discriminate E | exact (Hw H)].
Qed.

Lemma splitSpaces_words (s : string) :
  endsWithoutSpace s = true ->
  match s with
  | EmptyString => True
  | String c _ =>
      if Ascii.eqb c " "
      then exists ws, splitSpaces s = "" :: ws /\ Forall (fun w => Js.truthy w = true) ws
      else Forall (fun w => Js.truthy w = true) (splitSpaces s)
  end.
Proof.
  induction s as [|c s IH]; [trivial |]. intros Hend.
  destruct s as [|c' s'].
  - simpl in Hend. destruct (Ascii.eqb c " ") eqn:E; [discriminate Hend |].
    simpl. rewrite E. repeat constructor.
  - assert (Hend' : endsWithoutSpace (String c' s') = true) by exact Hend.
    specialize (IH Hend').
    change (splitSpaces (String c (String c' s')))
      with (if Ascii.eqb c " "
            then if Ascii.eqb c' " " then splitSpaces (String c' s')
                 else "" :: splitSpaces (String c' s')
            else match splitSpaces (String c' s') with
                 | w :: rest => String c w :: rest
                 | [] => [String c ""]
                 end).
    destruct (Ascii.eqb c " ") eqn:E.
    + destruct (Ascii.eqb c' " ") eqn:E'.
      * exact IH.
      * eexists. split; [reflexivity | exact IH].
    + destruct (Ascii.eqb c' " ") eqn:E'.
      * destruct IH as [ws [-> Hws]]. constructor; [reflexivity | exact Hws].
      * destruct (splitSpaces (String c' s')) as [|w ws].
        -- repeat constructor.
        -- inversion IH; subst. constructor; [reflexivity | assumption].
Qed.

Section Parse.

Variable toLowerCase : string -> string.
Variable config : Config.
Variable selfId : option string.

(** X19: a message that passes the filter always gives a command: the
    exit on an empty list of words is never taken, because [split]
    returns at least one piece.  The command word is the first word of
    the trimmed text after the prefix, lower-cased; no word contains a
    space, every argument is non-empty, and there is no argument when
    the first word is empty.  So a handler finds an empty argument only
    where there is none.  This holds whatever [toLowerCase] does. *)
Theorem parseCommand_spec (m : Incoming) :
  (parseCommand toLowerCase config selfId m = None <-> ignored config selfId m = true)
  /\ forall user_cmd args,
       parseCommand toLowerCase config selfId m = Some (user_cmd, args) ->
       exists word,
         commandWords config m = word :: args
         /\ user_cmd = toLowerCase word
         /\ noSpace word
         /\ (word = "" -> args = [])
         /\ Forall (fun a => Js.truthy a = true /\ noSpace a) args.
Proof.
  unfold parseCommand, commandWords.
  set (text := Js.trim (Js.drop (String.length (prefix config)) (content m))).
  destruct (splitSpaces_cons text) as [w [ws Hw]].
  pose proof (splitSpaces_noSpace text) as Hns.
  split.
  - destruct (ignored config selfId m); [tauto |].
    rewrite Hw. split; discriminate.
  - intros user_cmd args. destruct (ignored config selfId m); [discriminate |].
    rewrite Hw in *. intros H. injection H as <- <-.
    inversion Hns as [|? ? Hnsw Hnsws]. subst.
    exists w. split; [reflexivity |]. split; [reflexivity |]. split; [exact Hnsw |].
    destruct (trim_shape (Js.drop (String.length (prefix config)) (content m)))
      as [Ht | [c [t [Ht [Hc Hend]]]]]; fold text in Ht.
    + rewrite Ht in Hw. simpl in Hw. injection Hw as <- <-.
      split; [reflexivity | constructor].
    + pose proof (splitSpaces_words text) as Hwords.
      rewrite Ht in Hwords. specialize (Hwords Hend). rewrite Hc in Hwords.
      rewrite <- Ht, Hw in Hwords. inversion Hwords as [|? ? Hw1 Hws1]. subst.
      split.
      * intros ->. discriminate Hw1.
      * clear - Hws1 Hnsws. induction ws as [|a ws IH]; constructor.
        -- inversion Hws1; inversion Hnsws; subst. now split.
        -- inversion Hws1; inversion Hnsws; subst. now apply IH.
Qed.

End Parse.

(** A command in capitals with several spaces, and [stop] followed by a
    no-break space. *)
Lemma parseCommand_spec_witness :
  parseCommand asciiLowerCase exampleConfig (Some "bot")
    (userMessage "$PlayLink   https://youtu.be/abc ")
  = Some ("playlink", ["https://youtu.be/abc"])
  /\ parseCommand asciiLowerCase exampleConfig (Some "bot") (userMessage ("$stop" ++ nbsp))
     = Some ("stop", [])
  /\ Forall (fun a => Js.truthy a = true /\ noSpace a) ["https://youtu.be/abc"].
Proof.
  split; [reflexivity |]. split; [reflexivity |].
  destruct (proj2 (parseCommand_spec asciiLowerCase exampleConfig (Some "bot")
                     (userMessage "$PlayLink   https://youtu.be/abc "))
              "playlink" ["https://youtu.be/abc"] eq_refl)
    as [word [_ [_ [_ [_ H]]]]].
  exact H.
Defined.

(* ================================================================= *)
(** ** Further properties: Jellyfin items *)

Lemma joins_app (a b : list Effect) : joins (a ++ b) = (joins a ++ joins b)%list.
Proof.
  induction a as [|e a IH]; [reflexivity |].
  destruct e as [[]| | | | | | |]; simpl; now rewrite ?IH.
Qed.

Lemma pipelineInputs_app (a b : list Effect) :
  pipelineInputs (a ++ b) = (pipelineInputs a ++ pipelineInputs b)%list.
Proof.
  induction a as [|e a IH]; [reflexivity |].
  destruct e; simpl; now rewrite ?IH.
Qed.

Section Jellyfin.

Variable config : Config.

#[local] Arguments getDisplayName : simpl never.

(** X20: [jfplay] on an item that cannot be played, while nothing is
    joined and the Jellyfin client exists.  When the client has no
    stream information for the item, the answer is "Failed to get stream
    information for this item".  When the stream information is there
    and the "Now Playing" notification fails, the answer is "Failed to
    play item: " followed by the message of the failure.  In both cases
    [playVideo] is not called, and the stream status and the controller
    are as before. *)
Theorem jfplay_failure (s : Sys) (message : Message) (args : list string)
    (itemId text : string) (o : Oracle) (reply : Message) (evs : list Event)
    (calls : list Effect) :
  let n := List.length (pending s) in
  jellyfin_enabled config = true ->
  joined (streamStatus (world s)) = false ->
  hd_error args = Some itemId ->
  Js.truthy itemId = true ->
  o (React message "❌") = Resolved tt ->
  o (Reply message (errorText text)) = Resolved reply ->
  (o (GetStreamInfo itemId) = Resolved None
   /\ text = "Failed to get stream information for this item"
   /\ calls = [Call (GetStreamInfo itemId)]
   /\ evs = [MessageCreate message jfplay args; Settle n o; Settle n o; Settle n o])
  \/ (exists info item e,
        o (GetStreamInfo itemId) = Resolved (Some info)
        /\ o (GetItem itemId) = Resolved item
        /\ o (PromiseAll (React message "▶️")
                (Reply message (playingText (announced item itemId)))) = Rejected e
        /\ text = "Failed to play item: " ++ exnMessage e
        /\ calls = [Call (GetStreamInfo itemId); Call (GetItem itemId);
                    Call (React message "▶️");
                    Call (Reply message (playingText (announced item itemId)))]
        /\ evs = MessageCreate message jfplay args :: repeat (Settle n o) 5) ->
  let s' := run config s evs in
  pending s' = pending s
  /\ streamStatus (world s') = streamStatus (world s)
  /\ controller (world s') = controller (world s)
  /\ aborted (world s') = aborted (world s)
  /\ trace (world s')
     = (trace (world s) ++ calls
          ++ [Call (React message "❌"); Call (Reply message (errorText text))])%list
  /\ joins (trace (world s')) = joins (trace (world s))
  /\ pipelineInputs (trace (world s')) = pipelineInputs (trace (world s)).
Proof.
  intros n Hjf Hj Hargs Hid Hreact Hreply Hcase. hold.
  destruct s as [w ps]. destruct w as [st opts vids ctl flags cached tr].
  unfold n in *. clear n. unfold errorText, playingText, announced in *.
  cbn [world pending streamStatus controller aborted trace repeat] in *.
  destruct Hcase as [[Hs [-> [-> ->]]] | [info [item [e [Hs [Hi [Hp [-> [-> ->]]]]]]]]];
    rewrite run_cons, step_message_eq; unfold messageCreate, onJfplay;
    rewrite Hjf; vsimpl; rewrite Hj, Hargs; vsimpl; rewrite Hid; vsimpl;
    rewrite run_cons, step_settle_last, Hs; vsimpl.
  - simpl in Hreply.
    rewrite run_cons, step_settle_last, Hreact. vsimpl.
    rewrite run_cons, step_settle_last, run_nil. vsimpl. rewrite Hreply.
    intros s' ->. vsimpl. repeat split; suffix; try reflexivity.
    + rewrite joins_app. simpl. now rewrite app_nil_r.
    + rewrite pipelineInputs_app. simpl. now rewrite app_nil_r.
  - simpl in Hreply.
    rewrite run_cons, step_settle_last, Hi. vsimpl.
    rewrite run_cons, step_settle_last.
    destruct item as [i|]; cbn [append] in Hp; vsimpl; rewrite Hp; vsimpl;
      rewrite run_cons, step_settle_last, Hreact; vsimpl;
      rewrite run_cons, step_settle_last, run_nil; vsimpl; rewrite Hreply;
      intros s' ->; vsimpl; repeat split; suffix; try reflexivity;
      first [ rewrite joins_app; simpl; now rewrite app_nil_r
            | rewrite pipelineInputs_app; simpl; now rewrite app_nil_r ].
Qed.

(** X21: [jfplay] on an item that the Jellyfin bot knows, while nothing
    is joined: the item is announced under its display name, or as
    "Jellyfin Item" with its identifier when its description is
    missing, and ffmpeg is started on the address that the bot gave.
    The user is told "Now Playing" twice: by the handler, and by
    [playVideo] after the join. *)
Theorem jfplay_start (s : Sys) (message : Message) (args : list string)
    (itemId : string) (info : StreamInfo) (item : option JellyfinItem) (o : Oracle) :
  let n := List.length (pending s) in
  let displayName := announced item itemId in
  jellyfin_enabled config = true ->
  joined (streamStatus (world s)) = false ->
  hd_error args = Some itemId ->
  Js.truthy itemId = true ->
  o (GetStreamInfo itemId) = Resolved (Some info) ->
  o (GetItem itemId) = Resolved item ->
  isYoutube (streamUrl info) = false ->
  o (PromiseAll (React message "▶️") (Reply message (playingText displayName)))
    = Resolved tt ->
  o (JoinVoice (guildId config) (videoChannelId config)) = Resolved tt ->
  o (PromiseAll (React message "▶️")
       (Reply message (playingText (Js.orElse displayName (streamUrl info)))))
    = Resolved tt ->
  let s' := run config s (MessageCreate message jfplay args :: repeat (Settle n o) 5) in
  exists suffix,
    map awaited (pending s')
    = (map awaited (pending s)
         ++ [PlayStream (streamUrl info) (List.length (aborted (world s)))])%list
    /\ trace (world s') = (trace (world s) ++ suffix)%list
    /\ playingNotices suffix
       = [playingText displayName; playingText (Js.orElse displayName (streamUrl info))]
    /\ joins suffix = [(guildId config, videoChannelId config)]
    /\ downloads suffix = []
    /\ pipelineInputs suffix = [streamUrl info].
Proof.
  intros n displayName Hjf Hj Hargs Hid Hs Hi Hy Hp1 Hjoin Hp2. hold.
  destruct s as [w ps]. destruct w as [st opts vids ctl flags cached tr].
  unfold n, displayName, announced, playingText, Js.orElse in *. clear n displayName.
  cbn [world pending streamStatus controller aborted trace repeat] in *.
  rewrite run_cons, step_message_eq. unfold messageCreate, onJfplay.
  rewrite Hjf. vsimpl. rewrite Hj, Hargs. vsimpl. rewrite Hid. vsimpl.
  rewrite run_cons, step_settle_last, Hs. vsimpl.
  rewrite run_cons, step_settle_last, Hi. vsimpl.
  rewrite run_cons, step_settle_last.
  unfold playVideo. rewrite Hy.
  destruct item as [i|].
  - cbn [append] in Hp1, Hp2.
    vsimpl. rewrite Hp1. vsimpl.
    rewrite run_cons, step_settle_last, Hjoin. vsimpl.
    unfold Js.orElse.
    destruct (Js.truthy (getDisplayName i)) eqn:Ht; vsimpl;
      rewrite run_cons, step_settle_last; vsimpl; rewrite Hp2; vsimpl;
      (destruct ctl as [c0|]; vsimpl; autorewrite with flags; rewrite run_nil;
       intros s' ->; vsimpl; rewrite map_app;
       (eexists; split; [reflexivity |]; suffix; split; [reflexivity |];
        repeat split)).
  - cbn [append Js.truthy] in Hp1, Hp2.
    vsimpl. rewrite Hp1. vsimpl.
    rewrite run_cons, step_settle_last, Hjoin. vsimpl.
    rewrite run_cons, step_settle_last; vsimpl; rewrite Hp2; vsimpl;
      (destruct ctl as [c0|]; vsimpl; autorewrite with flags; rewrite run_nil;
       intros s' ->; vsimpl; rewrite map_app;
       (eexists; split; [reflexivity |]; suffix; split; [reflexivity |];
        repeat split)).
Qed.

End Jellyfin.

(** The Jellyfin bot has no stream information for the item. *)
Lemma jfplay_failure_witness :
  trace (world (run jellyfinConfig (start (initialWorld jellyfinConfig [] true))
                  [MessageCreate playMessage jfplay ["42"];
                   Settle 0 fulfilled; Settle 0 fulfilled; Settle 0 fulfilled]))
  = [Call (GetStreamInfo "42"); Call (React playMessage "❌");
     Call (Reply playMessage
             (errorText "Failed to get stream information for this item"))].
Proof.
  destruct (jfplay_failure jellyfinConfig (start (initialWorld jellyfinConfig [] true))
              playMessage ["42"] "42" "Failed to get stream information for this item"
              fulfilled {| msgId := 2 |} _ _ eq_refl eq_refl eq_refl eq_refl eq_refl eq_refl
              (or_introl (conj eq_refl (conj eq_refl (conj eq_refl eq_refl)))))
    as [_ [_ [_ [_ [H _]]]]].
  exact H.
Defined.

(** The Jellyfin bot knows the item. *)
Lemma jfplay_start_witness :
  exists suffix,
    trace (world (run jellyfinConfig (start (initialWorld jellyfinConfig [] true))
                    (MessageCreate playMessage jfplay ["42"]
                     :: repeat (Settle 0 jellyfinFinds) 5)))
    = suffix
    /\ playingNotices suffix = [playingText "Heat (1995)"; playingText "Heat (1995)"]
    /\ pipelineInputs suffix = ["jellyfin://stream/42"].
Proof.
  destruct (jfplay_start jellyfinConfig (start (initialWorld jellyfinConfig [] true))
              playMessage ["42"] "42"
              {| streamUrl := "jellyfin://stream/42"; isLocal := false |} (Some movie)
              jellyfinFinds eq_refl eq_refl eq_refl eq_refl eq_refl eq_refl eq_refl
              eq_refl eq_refl eq_refl)
    as [suffix [_ [H1 [H2 [_ [_ H3]]]]]].
  exists suffix. split; [exact H1 |]. split; [exact H2 | exact H3].
Defined.
